(** * Kando: the input tracker, the menu-item tree, the layout resolver and
      the menu selector.

    A shallow embedding of [src/renderer/menu/input-tracker.ts] and of the
    shared interfaces of [src/common] (IVec2, IMenuItem, IMenuConditions,
    IMenu, IShowMenuRequest, deepCopyMenuItem), with the properties the
    specification states about them.

    JavaScript numbers are read as exact rationals ([Q]): pixel coordinates
    and angles in degrees.  Rounding, NaN and the infinities of IEEE doubles
    are outside this model. *)

From Stdlib Require Import ZArith QArith Qround Qreals Reals Bool String Ascii List Lia Lra.
Import ListNotations.

Open Scope Z_scope.

(* ================================================================== *)
(** ** src/common: IVec2 *)

Record IVec2 : Type := mkVec2 { x : Q; y : Q }.

(* ================================================================== *)
(** ** src/renderer/math *)

Module math.

(** Modelled from the spec: [src/renderer/math] is not among the sources;
    the spec describes it as "pure vector math: subtraction, length,
    angle-from-vector".  A length is the square root of a non-negative
    rational; it is kept exactly, as the number under the root. *)
Record Length : Type := root { radicand : Q }.

(** Modelled from the spec: "relative position = position -
    activeItemPosition". *)
Definition subtract (vec1 vec2 : IVec2) : IVec2 :=
  {| x := (x vec1 - x vec2)%Q; y := (y vec1 - y vec2)%Q |}.

(** Modelled from the spec: "distance = vector length". *)
Definition getLength (vec : IVec2) : Length :=
  root (x vec * x vec + y vec * y vec)%Q.

(** Modelled from the spec: the "distance from click-origin" of the drag
    threshold, the length of the difference of the two points. *)
Definition getDistance (vec1 vec2 : IVec2) : Length :=
  getLength (subtract vec1 vec2).

(** [gt l t] is the comparison [l > t] of a length with a number. *)
Definition gt (l : Length) (t : Q) : bool :=
  if Qlt_le_dec t 0 then true
  else if Qlt_le_dec (t * t) (radicand l) then true else false.

(** The real number a [Length] stands for. *)
Definition toR (l : Length) : R := sqrt (Q2R (radicand l)).

(** The Euclidean distance of two points, as a real number. *)
Definition euclidean (a b : IVec2) : R :=
  sqrt ((Q2R (x a) - Q2R (x b)) * (Q2R (x a) - Q2R (x b))
        + (Q2R (y a) - Q2R (y b)) * (Q2R (y a) - Q2R (y b)))%R.

End math.

(* ================================================================== *)
(** ** src/renderer/menu/input-tracker.ts *)

Definition DRAG_THRESHOLD : Q := 5%Q.

Inductive InputState : Type := eReleased | eClicked | eDragging.

Definition InputState_eqb (a b : InputState) : bool :=
  match a, b with
  | eReleased, eReleased | eClicked, eClicked | eDragging, eDragging => true
  | _, _ => false
  end.

(** The modifier flags every UI event carries. *)
Record Modifiers : Type := mkModifiers {
  ctrlKey : bool;
  metaKey : bool;
  shiftKey : bool;
  altKey : bool
}.

Definition noModifiers : Modifiers := mkModifiers false false false false.

Definition anyModifier (m : Modifiers) : bool :=
  ctrlKey m || metaKey m || shiftKey m || altKey m.

(** [MouseEvent | TouchEvent], with the fields the tracker reads. *)
Inductive PointerEvent : Type :=
| MouseEvent (clientX clientY : Q) (buttons : Z) (mods : Modifiers)
| TouchEvent (touches : list IVec2) (mods : Modifiers).

Definition modifiersOf (event : PointerEvent) : Modifiers :=
  match event with
  | MouseEvent _ _ _ m => m
  | TouchEvent _ m => m
  end.

(** The position the handlers read: [clientX], [clientY] of a mouse event,
    those of [touches[0]] of a touch event.  Reading [touches[0].clientX] of
    an empty touch list throws a TypeError: [None]. *)
Definition positionOf (event : PointerEvent) : option IVec2 :=
  match event with
  | MouseEvent cx cy _ _ => Some (mkVec2 cx cy)
  | TouchEvent touches _ => hd_error touches
  end.

(** [event instanceof MouseEvent && event.buttons === 0]. *)
Definition mouseWithoutButtons (event : PointerEvent) : bool :=
  match event with
  | MouseEvent _ _ buttons _ => buttons =? 0
  | TouchEvent _ _ => false
  end.

Record KeyboardEvent : Type := mkKeyboardEvent { keyMods : Modifiers }.

(** What the tracker emits: ['pointer-motion'] with the absolute position
    and the dragging flag. *)
Inductive Emission : Type :=
| PointerMotion (position : IVec2) (dragging : bool).

Section Tracker.

(** [math.getAngle] is not among the sources; the tracker only stores its
    result, so it stays a parameter, together with the number [0] the
    [_angle] field starts with. *)
Variable Angle : Type.
Variable getAngle : IVec2 -> Angle.
Variable zeroAngle : Angle.

(** The fields of the class [InputTracker]. *)
Record InputTracker : Type := mkTracker {
  _state : InputState;
  _absolutePosition : IVec2;
  _relativePosition : IVec2;
  _angle : Angle;
  _distance : math.Length;
  _deferredTurboMode : bool;
  clickPosition : IVec2;
  ignoreMotionEvents : Z;
  turboMode : bool
}.

(** The field initialisers of the class. *)
Definition newTracker : InputTracker :=
  {| _state := eReleased;
     _absolutePosition := mkVec2 0 0;
     _relativePosition := mkVec2 0 0;
     _angle := zeroAngle;
     _distance := math.root 0;
     _deferredTurboMode := false;
     clickPosition := mkVec2 0 0;
     ignoreMotionEvents := 0;
     turboMode := false |}.

(** Field updates, one per assigned field. *)
Definition set_state (s : InputState) (t : InputTracker) : InputTracker :=
  mkTracker s (_absolutePosition t) (_relativePosition t) (_angle t)
    (_distance t) (_deferredTurboMode t) (clickPosition t)
    (ignoreMotionEvents t) (turboMode t).

Definition set_turboMode (b : bool) (t : InputTracker) : InputTracker :=
  mkTracker (_state t) (_absolutePosition t) (_relativePosition t) (_angle t)
    (_distance t) (_deferredTurboMode t) (clickPosition t)
    (ignoreMotionEvents t) b.

Definition set__deferredTurboMode (b : bool) (t : InputTracker)
  : InputTracker :=
  mkTracker (_state t) (_absolutePosition t) (_relativePosition t) (_angle t)
    (_distance t) b (clickPosition t) (ignoreMotionEvents t) (turboMode t).

Definition set_clickPosition (p : IVec2) (t : InputTracker) : InputTracker :=
  mkTracker (_state t) (_absolutePosition t) (_relativePosition t) (_angle t)
    (_distance t) (_deferredTurboMode t) p (ignoreMotionEvents t)
    (turboMode t).

Definition set_ignoreMotionEvents (n : Z) (t : InputTracker)
  : InputTracker :=
  mkTracker (_state t) (_absolutePosition t) (_relativePosition t) (_angle t)
    (_distance t) (_deferredTurboMode t) (clickPosition t) n (turboMode t).

(** How a handler ends: it returns, having emitted some events, or it
    throws; the tracker is the object as the handler left it. *)
Inductive Outcome : Type :=
| Returned (t : InputTracker) (emitted : list Emission)
| Threw (t : InputTracker).

Definition trackerOf (o : Outcome) : InputTracker :=
  match o with Returned t _ => t | Threw t => t end.

Definition emittedBy (o : Outcome) : list Emission :=
  match o with Returned _ ems => ems | Threw _ => [] end.

(** [set deferredTurboMode(val)]. *)
Definition deferredTurboMode (val : bool) (t : InputTracker)
  : InputTracker :=
  set_turboMode false (set__deferredTurboMode val t).

(** [update(position, activeItemPosition?)]. *)
Definition update (position : IVec2) (activeItemPosition : option IVec2)
    (t : InputTracker) : InputTracker :=
  let activeItemPosition :=
    match activeItemPosition with Some a => a | None => position end in
  let relative := math.subtract position activeItemPosition in
  mkTracker (_state t) position relative (getAngle relative)
    (math.getLength relative) (_deferredTurboMode t) (clickPosition t)
    (ignoreMotionEvents t) (turboMode t).

(** The drag-threshold test of [onMotionEvent]. *)
Definition applyDragThreshold (t : InputTracker) : InputTracker :=
  if InputState_eqb (_state t) eClicked
     && math.gt (math.getDistance (_absolutePosition t) (clickPosition t))
          DRAG_THRESHOLD
  then set_state eDragging t else t.

(** The turbo-mode update of [onMotionEvent]. *)
Definition applyModifiers (event : PointerEvent) (t : InputTracker)
  : InputTracker :=
  if negb (_deferredTurboMode t)
  then set_turboMode (turboMode t || anyModifier (modifiersOf event)) t
  else t.

(** The last state assignment of [onMotionEvent]. *)
Definition applyTurboOrRelease (event : PointerEvent) (t : InputTracker)
  : InputTracker :=
  if turboMode t then set_state eDragging t
  else if mouseWithoutButtons event && InputState_eqb (_state t) eDragging
  then set_state eReleased t
  else t.

(** The body of [onMotionEvent] after the ignore guard: what the handler
    does with an event it accepts. *)
Definition processMotion (event : PointerEvent) (activeItemPosition : IVec2)
    (t : InputTracker) : Outcome :=
  match positionOf event with
  | None => Threw t
  | Some position =>
      let t := update position (Some activeItemPosition) t in
      let t := applyDragThreshold t in
      let t := applyModifiers event t in
      let t := applyTurboOrRelease event t in
      Returned t
        [PointerMotion (_absolutePosition t)
           (InputState_eqb (_state t) eDragging)]
  end.

(** [onMotionEvent(event, activeItemPosition)]. *)
Definition onMotionEvent (event : PointerEvent) (activeItemPosition : IVec2)
    (t : InputTracker) : Outcome :=
  if 0 <? ignoreMotionEvents t
  then Returned (set_ignoreMotionEvents (ignoreMotionEvents t - 1) t) []
  else processMotion event activeItemPosition t.

(** [onPointerDownEvent(event, activeItemPosition)]. *)
Definition onPointerDownEvent (event : PointerEvent)
    (activeItemPosition : IVec2) (t : InputTracker) : Outcome :=
  match positionOf event with
  | None => Threw t
  | Some position =>
      let t := set_clickPosition position t in
      let t := set_state eClicked t in
      onMotionEvent event activeItemPosition t
  end.

(** [onPointerUpEvent()]. *)
Definition onPointerUpEvent (t : InputTracker) : Outcome :=
  Returned (set_state eReleased t) [].

(** [onKeyDownEvent()]. *)
Definition onKeyDownEvent (t : InputTracker) : Outcome :=
  Returned (if negb (_deferredTurboMode t) then set_turboMode true t else t)
    [].

(** [onKeyUpEvent(event)]. *)
Definition onKeyUpEvent (event : KeyboardEvent) (t : InputTracker)
  : Outcome :=
  let stillAnyModifierPressed := anyModifier (keyMods event) in
  Returned
    (if negb stillAnyModifierPressed
     then set_turboMode false (set__deferredTurboMode false t)
     else t)
    [].

(** [ignoreNextMotionEvents()]. *)
Definition ignoreNextMotionEvents (t : InputTracker) : Outcome :=
  Returned (set_ignoreMotionEvents 2 t) [].

(** The public interface of the class as the calls a client can make. *)
Inductive Call : Type :=
| CallMotion (event : PointerEvent) (activeItemPosition : IVec2)
| CallPointerDown (event : PointerEvent) (activeItemPosition : IVec2)
| CallPointerUp
| CallKeyDown
| CallKeyUp (event : KeyboardEvent)
| CallUpdate (position : IVec2) (activeItemPosition : option IVec2)
| CallIgnoreNextMotionEvents
| CallSetDeferredTurboMode (val : bool).

Definition perform (c : Call) (t : InputTracker) : Outcome :=
  match c with
  | CallMotion e a => onMotionEvent e a t
  | CallPointerDown e a => onPointerDownEvent e a t
  | CallPointerUp => onPointerUpEvent t
  | CallKeyDown => onKeyDownEvent t
  | CallKeyUp e => onKeyUpEvent e t
  | CallUpdate p a => Returned (update p a t) []
  | CallIgnoreNextMotionEvents => ignoreNextMotionEvents t
  | CallSetDeferredTurboMode val => Returned (deferredTurboMode val t) []
  end.

(** A sequence of calls on one tracker object: the tracker after the last
    call.  A call that throws leaves the object as it was at the throw, and
    the next call finds it so. *)
Fixpoint performAll (cs : list Call) (t : InputTracker) : InputTracker :=
  match cs with
  | [] => t
  | c :: cs => performAll cs (trackerOf (perform c t))
  end.

(** All events emitted along a sequence of calls, in order. *)
Fixpoint emittedAlong (cs : list Call) (t : InputTracker) : list Emission :=
  match cs with
  | [] => []
  | c :: cs =>
      emittedBy (perform c t) ++ emittedAlong cs (trackerOf (perform c t))
  end.

(** The calls that end a deferral of turbo mode: a key-up with no modifier
    still held, and the setter called with [false]. *)
Definition liftsDeferral (c : Call) : bool :=
  match c with
  | CallKeyUp e => negb (anyModifier (keyMods e))
  | CallSetDeferredTurboMode val => negb val
  | _ => false
  end.

(** The calls that assign [false] to [turboMode]: a key-up with no modifier
    still held, and the setter whatever its argument. *)
Definition clearsTurboMode (c : Call) : bool :=
  match c with
  | CallKeyUp e => negb (anyModifier (keyMods e))
  | CallSetDeferredTurboMode _ => true
  | _ => false
  end.

(** A run of motion events as calls. *)
Definition motionCalls (events : list (PointerEvent * IVec2)) : list Call :=
  map (fun ea => CallMotion (fst ea) (snd ea)) events.

End Tracker.

Arguments mkTracker {Angle}.
Arguments _state {Angle}.
Arguments _absolutePosition {Angle}.
Arguments _relativePosition {Angle}.
Arguments _angle {Angle}.
Arguments _distance {Angle}.
Arguments _deferredTurboMode {Angle}.
Arguments clickPosition {Angle}.
Arguments ignoreMotionEvents {Angle}.
Arguments turboMode {Angle}.
Arguments set_state {Angle}.
Arguments set_turboMode {Angle}.
Arguments set__deferredTurboMode {Angle}.
Arguments set_clickPosition {Angle}.
Arguments set_ignoreMotionEvents {Angle}.
Arguments Returned {Angle}.
Arguments Threw {Angle}.
Arguments trackerOf {Angle}.
Arguments emittedBy {Angle}.
Arguments deferredTurboMode {Angle}.
Arguments update {Angle}.
Arguments applyDragThreshold {Angle}.
Arguments applyModifiers {Angle}.
Arguments applyTurboOrRelease {Angle}.
Arguments processMotion {Angle}.
Arguments onMotionEvent {Angle}.
Arguments onPointerDownEvent {Angle}.
Arguments onPointerUpEvent {Angle}.
Arguments onKeyDownEvent {Angle}.
Arguments onKeyUpEvent {Angle}.
Arguments ignoreNextMotionEvents {Angle}.
Arguments perform {Angle}.
Arguments performAll {Angle}.
Arguments emittedAlong {Angle}.

(** *** Kinds of calls and of events *)

(** The calls that go through [onMotionEvent]: only they can emit. *)
Definition emitsMotion (c : Call) : bool :=
  match c with
  | CallMotion _ _ | CallPointerDown _ _ => true
  | _ => false
  end.

(** The keyboard handlers. *)
Definition isKeyCall (c : Call) : bool :=
  match c with
  | CallKeyDown | CallKeyUp _ => true
  | _ => false
  end.

(** A motion event that carries a position and is no mouse event with all
    buttons up: a touch move, or a mouse move with a button held. *)
Definition keepsButtonDown (ea : PointerEvent * IVec2) : bool :=
  match positionOf (fst ea) with
  | Some _ => negb (mouseWithoutButtons (fst ea))
  | None => false
  end.

(** A motion event with no modifier held whose position is within the drag
    threshold of [origin]. *)
Definition staysWithin (origin : IVec2) (ea : PointerEvent * IVec2) : bool :=
  match positionOf (fst ea) with
  | Some p =>
      negb (math.gt (math.getDistance p origin) DRAG_THRESHOLD)
      && negb (anyModifier (modifiersOf (fst ea)))
  | None => false
  end.

(** The dragging flag of a notification. *)
Definition draggingFlag (em : Emission) : bool :=
  match em with PointerMotion _ dragging => dragging end.

(* ================================================================== *)
(** ** src/common: menu items, menus, conditions, requests *)

Section Common.

(** The [unknown] payload of a menu item: the core never looks inside. *)
Variable Data : Type.

(** [interface IMenuItem]; an optional field is an [option].  The induction
    principle that goes through the children is [IMenuItem_tree_ind]. *)
#[local] Unset Elimination Schemes.
Inductive IMenuItem : Type := mkMenuItem {
  type : string;
  data : option Data;
  name : string;
  icon : string;
  iconTheme : string;
  children : option (list IMenuItem);
  angle : option Q
}.
#[local] Set Elimination Schemes.

(** [deepCopyMenuItem(item)]; [item.children?.map(deepCopyMenuItem)] is
    [undefined] when there are no children. *)
Fixpoint deepCopyMenuItem (item : IMenuItem) : IMenuItem :=
  {| type := type item;
     data := data item;
     name := name item;
     icon := icon item;
     iconTheme := iconTheme item;
     children := option_map (map deepCopyMenuItem) (children item);
     angle := angle item |}.

(** The [screenArea] member of [IMenuConditions]. *)
Record ScreenArea : Type := mkScreenArea {
  xMin : option Q;
  xMax : option Q;
  yMin : option Q;
  yMax : option Q
}.

(** [interface IMenuConditions]. *)
Record IMenuConditions : Type := mkMenuConditions {
  windowName : option string;
  appName : option string;
  screenArea : option ScreenArea
}.

(** [interface IMenu]. *)
Record IMenu : Type := mkMenu {
  root : IMenuItem;
  shortcut : string;
  shortcutID : string;
  centered : bool;
  anchored : bool;
  conditions : option IMenuConditions
}.

(** [deepCopyMenu(menu)]; [structuredClone] of the conditions is a value
    equal to them. *)
Definition deepCopyMenu (menu : IMenu) : IMenu :=
  {| root := deepCopyMenuItem (root menu);
     shortcut := shortcut menu;
     shortcutID := shortcutID menu;
     centered := centered menu;
     anchored := anchored menu;
     conditions := conditions menu |}.

End Common.

Arguments mkMenuItem {Data}.
Arguments type {Data}.
Arguments data {Data}.
Arguments name {Data}.
Arguments icon {Data}.
Arguments iconTheme {Data}.
Arguments children {Data}.
Arguments angle {Data}.
Arguments deepCopyMenuItem {Data}.
Arguments mkMenu {Data}.
Arguments root {Data}.
Arguments shortcut {Data}.
Arguments shortcutID {Data}.
Arguments centered {Data}.
Arguments anchored {Data}.
Arguments conditions {Data}.
Arguments deepCopyMenu {Data}.

(** [interface IShowMenuRequest], in a name space of its own: its [name]
    is not the [name] of a menu item. *)
Module IShowMenuRequest.
Record t : Type := make { trigger : string; name : string }.
End IShowMenuRequest.

(* ================================================================== *)
(** ** The menu layout resolver *)

Module Layout.

Open Scope Q_scope.

(** Modelled from the spec: the layout resolver is not among the sources.
    A sibling is seen through its optional fixed angle only. *)
Definition Sibling : Type := option Q.

Definition isFixed (s : Sibling) : bool :=
  match s with Some _ => true | None => false end.

(** Modelled from the spec: resolved angles are degrees in [[0,360)]. *)
Definition wrap360 (a : Q) : Q := a - 360 * inject_Z (Qfloor (a / 360)).

(** Modelled from the spec: "If there are no fixed items at all, all n
    siblings are spaced evenly starting at 0: item i -> i * 360/n". *)
Fixpoint evenlyFrom (i n : nat) (items : list Sibling) : list Q :=
  match items with
  | [] => []
  | _ :: rest =>
      (inject_Z (Z.of_nat i) * 360 / inject_Z (Z.of_nat n))
        :: evenlyFrom (S i) n rest
  end.

(** The length of the run of free items a list starts with. *)
Fixpoint freeRun (items : list Sibling) : nat :=
  match items with
  | None :: rest => S (freeRun rest)
  | _ => 0%nat
  end.

(** The first fixed angle of a list, [wrapTo] when it has none (the
    sequence is cyclic: after the last fixed item comes the first one). *)
Fixpoint nextFixed (wrapTo : Q) (items : list Sibling) : Q :=
  match items with
  | [] => wrapTo
  | Some a :: _ => a
  | None :: rest => nextFixed wrapTo rest
  end.

(** Modelled from the spec: the angular gap from one fixed angle to the next
    one clockwise; a single fixed item is followed by itself, a full turn
    later. *)
Definition gapSize (fixedStart fixedEnd : Q) : Q :=
  let d := wrap360 (fixedEnd - fixedStart) in
  if Qeq_bool d 0 then 360 else d.

(** Modelled from the spec: "for a gap between two fixed angles spanning a
    free-items run of length k, the i-th free item (0-indexed) in that run
    receives fixedStart + (i+1) * gapSize/(k+1)"; fixed items keep their
    angle verbatim.  The list starts at a fixed item or inside the run that
    follows [fixedStart]. *)
Fixpoint distribute (wrapTo fixedStart step : Q) (i : nat)
    (items : list Sibling) : list Q :=
  match items with
  | [] => []
  | Some a :: rest =>
      let k := freeRun rest in
      let step := gapSize a (nextFixed wrapTo rest)
                  / inject_Z (Z.of_nat (S k)) in
      a :: distribute wrapTo a step 0 rest
  | None :: rest =>
      wrap360 (fixedStart + inject_Z (Z.of_nat (S i)) * step)
        :: distribute wrapTo fixedStart step (S i) rest
  end.

(** The index of the first fixed item. *)
Fixpoint firstFixed (items : list Sibling) : option nat :=
  match items with
  | [] => None
  | Some _ :: _ => Some 0%nat
  | None :: rest => option_map S (firstFixed rest)
  end.

(** Modelled from the spec: the resolver.  With fixed items the cyclic
    sequence is read from its first fixed item on and the result is turned
    back into input order. *)
Definition computeItemAngles (items : list Sibling) : list Q :=
  match firstFixed items with
  | None => evenlyFrom 0 (length items) items
  | Some f =>
      let rotated := skipn f items ++ firstn f items in
      let first := nextFixed 0 rotated in
      let resolved := distribute first first 0 0 rotated in
      let back := (length items - f)%nat in
      skipn back resolved ++ firstn back resolved
  end.

End Layout.

(* ================================================================== *)
(** ** The menu selector *)

(** Modelled from the spec: the invocation context, "focused app name,
    focused window name, cursor position". *)
Record Context : Type := mkContext {
  focusedAppName : string;
  focusedWindowName : string;
  pointer : IVec2
}.

Module Selector.

(** [includes s sub]: [sub] occurs in [s]. *)
Fixpoint includes (s sub : string) : bool :=
  String.prefix sub s
  || match s with
     | EmptyString => false
     | String _ rest => includes rest sub
     end.

(** Modelled from the spec: "prefixed with a regex delimiter". *)
Definition isRegex (pattern : string) : bool := String.prefix "/" pattern.

Section WithRegex.

(** The regular-expression engine is the platform's; it is a parameter:
    [regexTest pattern s] says whether [s] matches [pattern]. *)
Variable regexTest : string -> string -> bool.

(** So is the case folding of strings, over the whole character set: two
    strings are compared case-insensitively by comparing their images. *)
Variable toLowerCase : string -> string.

Variable Data : Type.

(** Modelled from the spec: "appName/windowName match if the context string
    contains the configured substring case-insensitively, or, when the
    configured value is a regular expression, if the context string matches
    it". *)
Definition stringMatches (pattern context : string) : bool :=
  if isRegex pattern then regexTest pattern context
  else includes (toLowerCase context) (toLowerCase pattern).

Definition above (bound : option Q) (v : Q) : bool :=
  match bound with None => true | Some b => Qle_bool b v end.

Definition below (bound : option Q) (v : Q) : bool :=
  match bound with None => true | Some b => Qle_bool v b end.

(** Modelled from the spec: "screenArea matches if the cursor position falls
    within the (possibly half-open) rectangle"; an absent edge is unbounded
    on that side. *)
Definition areaMatches (area : ScreenArea) (p : IVec2) : bool :=
  above (xMin area) (x p) && below (xMax area) (x p)
  && above (yMin area) (y p) && below (yMax area) (y p).

(** One entry per condition field that is present: is it satisfied? *)
Definition presentFields (c : IMenuConditions) (ctx : Context) : list bool :=
  match windowName c with
  | Some w => [stringMatches w (focusedWindowName ctx)]
  | None => []
  end
  ++ match appName c with
     | Some a => [stringMatches a (focusedAppName ctx)]
     | None => []
     end
  ++ match screenArea c with
     | Some area => [areaMatches area (pointer ctx)]
     | None => []
     end.

(** Modelled from the spec: "each menu's specificity score is the count of
    condition fields present in its conditions that are simultaneously
    satisfied by the context; a menu with any present condition field that
    is not satisfied is disqualified entirely": [None]. *)
Definition specificity (menu : IMenu Data) (ctx : Context) : option nat :=
  match conditions menu with
  | None => Some 0%nat
  | Some c =>
      let fields := presentFields c ctx in
      if forallb (fun b => b) fields then Some (List.length fields) else None
  end.

(** Modelled from the spec: "a menu is a candidate only if its trigger
    matches the request (by shortcut/shortcutID or by name, per the request
    kind)": a request with a trigger asks by shortcut, one without asks by
    the name of the menu, which is the name of its root item. *)
Definition triggerMatches (request : IShowMenuRequest.t) (menu : IMenu Data)
  : bool :=
  match IShowMenuRequest.trigger request with
  | EmptyString => String.eqb (name (root menu)) (IShowMenuRequest.name request)
  | trigger =>
      String.eqb (shortcut menu) trigger || String.eqb (shortcutID menu) trigger
  end.

(** The score of a menu that survives: a candidate none of whose present
    condition fields fails. *)
Definition survives (request : IShowMenuRequest.t) (ctx : Context)
    (menu : IMenu Data) : option nat :=
  if triggerMatches request menu then specificity menu ctx else None.

(** The best survivor so far, as its index and score, after the menu at
    index [i] has been looked at: only a strictly higher score replaces
    it. *)
Definition keepBest (best : option (nat * nat)) (i : nat)
    (score : option nat) : option (nat * nat) :=
  match score, best with
  | Some s, None => Some (i, s)
  | Some s, Some (_, bestScore) =>
      if (bestScore <? s)%nat then Some (i, s) else best
  | None, _ => best
  end.

(** One pass over the configured list, in declaration order. *)
Fixpoint scan (request : IShowMenuRequest.t) (ctx : Context)
    (best : option (nat * nat)) (i : nat) (menus : list (IMenu Data))
  : option (nat * nat) :=
  match menus with
  | [] => best
  | menu :: rest =>
      scan request ctx (keepBest best i (survives request ctx menu)) (S i) rest
  end.

(** Modelled from the spec: "The selector returns the surviving candidate
    with the highest specificity score; ties are broken by earliest
    declaration order in the configured list.  If no candidate survives, the
    request yields no menu."  The selected menu is given by its index in the
    configured list. *)
Definition chooseMenuIndex (request : IShowMenuRequest.t) (ctx : Context)
    (menus : list (IMenu Data)) : option nat :=
  option_map fst (scan request ctx None 0 menus).

Definition chooseMenu (request : IShowMenuRequest.t) (ctx : Context)
    (menus : list (IMenu Data)) : option (IMenu Data) :=
  match chooseMenuIndex request ctx menus with
  | Some i => nth_error menus i
  | None => None
  end.

(** The words of the spec about a single menu, read on the fields of its
    conditions and not through the selector's own score: how many condition
    fields are present, *)
Definition fieldCount (c : IMenuConditions) : nat :=
  (match windowName c with Some _ => 1 | None => 0 end
   + match appName c with Some _ => 1 | None => 0 end
   + match screenArea c with Some _ => 1 | None => 0 end)%nat.

Definition fieldsPresent (menu : IMenu Data) : nat :=
  match conditions menu with
  | Some c => fieldCount c
  | None => 0%nat
  end.

(** and whether every condition field that is present is satisfied by the
    context. *)
Definition fieldsSatisfied (menu : IMenu Data) (ctx : Context) : Prop :=
  match conditions menu with
  | Some c =>
      (forall w, windowName c = Some w ->
                 stringMatches w (focusedWindowName ctx) = true)
      /\ (forall a, appName c = Some a ->
                    stringMatches a (focusedAppName ctx) = true)
      /\ (forall area, screenArea c = Some area ->
                       areaMatches area (pointer ctx) = true)
  | None => True
  end.

End WithRegex.

Arguments specificity regexTest toLowerCase {Data}.
Arguments triggerMatches {Data}.
Arguments survives regexTest toLowerCase {Data}.
Arguments scan regexTest toLowerCase {Data}.
Arguments chooseMenuIndex regexTest toLowerCase {Data}.
Arguments chooseMenu regexTest toLowerCase {Data}.
Arguments fieldsPresent {Data}.
Arguments fieldsSatisfied regexTest toLowerCase {Data}.

(** What the spec asks of the selected index [i], on the list of the
    survivors' scores ([None] for a menu that does not survive): it holds a
    survivor, no survivor scores higher, and every survivor declared
    earlier scores strictly lower. *)
Definition isBest (scores : list (option nat)) (i s : nat) : Prop :=
  nth_error scores i = Some (Some s)
  /\ forall j s', nth_error scores j = Some (Some s') ->
                 (s' <= s)%nat /\ (j < i -> s' < s)%nat.

Definition summarises (scores : list (option nat))
    (best : option (nat * nat)) : Prop :=
  match best with
  | Some (i, s) => isBest scores i s
  | None => forall j s, nth_error scores j <> Some (Some s)
  end.

End Selector.

(* ================================================================== *)
(** ** Sample menus *)

Module Samples.

Definition noRegex (_ _ : string) : bool := false.

(** A case folding for the samples, which are ASCII: that of the letters A
    to Z. *)
Definition lowerAscii (c : ascii) : ascii :=
  let n := nat_of_ascii c in
  if (65 <=? n)%nat && (n <=? 90)%nat then ascii_of_nat (n + 32) else c.

Fixpoint asciiLowerCase (s : string) : string :=
  match s with
  | EmptyString => EmptyString
  | String c rest => String (lowerAscii c) (asciiLowerCase rest)
  end.

Definition rootNamed (n : string) : IMenuItem unit :=
  mkMenuItem "submenu" None n "apps" "material-symbols-rounded" (Some []) None.

Definition onTrigger (n : string) (c : option IMenuConditions) : IMenu unit :=
  mkMenu (rootNamed n) "Control+Space" "main-trigger" false false c.

Definition oneField : option IMenuConditions :=
  Some (mkMenuConditions None (Some "fire"%string) None).

Definition twoFields : option IMenuConditions :=
  Some (mkMenuConditions (Some "mozilla"%string) (Some "fire"%string) None).

Definition failingField : option IMenuConditions :=
  Some (mkMenuConditions (Some "mozilla"%string) (Some "chrome"%string)
          (Some (mkScreenArea None None None None))).

Definition request : IShowMenuRequest.t :=
  IShowMenuRequest.make "Control+Space" EmptyString.

Definition firefox : Context :=
  mkContext "Firefox" "Mozilla Firefox" (mkVec2 100 100).

End Samples.

(* ================================================================== *)
(** * Properties *)

(** ** Lengths and real distances *)

Module mathFacts.

Import math.

Lemma Q2R_zero : Q2R 0 = 0%R.
Proof. unfold Q2R; simpl. apply Rmult_0_l. Qed.

Lemma toR_getDistance (a b : IVec2) :
  toR (getDistance a b) = euclidean a b.
Proof.
  unfold toR, getDistance, getLength, subtract, euclidean; simpl.
  f_equal.
  rewrite Q2R_plus, !Q2R_mult, !Q2R_minus.
  reflexivity.
Qed.

(** The boolean comparison is the comparison of the real numbers. *)
Lemma gt_iff (l : Length) (t : Q) :
  gt l t = true <-> (Q2R t < toR l)%R.
Proof.
  unfold gt, toR.
  destruct (Qlt_le_dec t 0) as [Hneg | Hpos].
  - split; [intros _ | reflexivity].
    apply Qlt_Rlt in Hneg. rewrite Q2R_zero in Hneg.
    pose proof (sqrt_pos (Q2R (radicand l))). lra.
  - apply Qle_Rle in Hpos. rewrite Q2R_zero in Hpos.
    assert (Hsq : sqrt (Q2R (t * t)) = Q2R t)
      by (rewrite Q2R_mult; apply sqrt_square; exact Hpos).
    destruct (Qlt_le_dec (t * t) (radicand l)) as [Hlt | Hle].
    + split; [intros _ | reflexivity].
      rewrite <- Hsq. apply sqrt_lt_1_alt. split.
      * rewrite Q2R_mult. nra.
      * apply Qlt_Rlt; exact Hlt.
    + split; [discriminate | intros Hlt].
      apply Qle_Rle in Hle. apply sqrt_le_1_alt in Hle.
      rewrite Hsq in Hle. lra.
Qed.

Lemma gt_false_iff (l : Length) (t : Q) :
  gt l t = false <-> (toR l <= Q2R t)%R.
Proof.
  split.
  - intros H. apply Rnot_lt_le. intros Hlt.
    apply gt_iff in Hlt. congruence.
  - intros H. destruct (gt l t) eqn:E; [| reflexivity].
    apply gt_iff in E. lra.
Qed.

(** The test of the drag threshold, on real distances. *)
Lemma exceeds_threshold_iff (a b : IVec2) :
  gt (getDistance a b) DRAG_THRESHOLD = true <-> (5 < euclidean a b)%R.
Proof.
  rewrite gt_iff, toR_getDistance.
  replace (Q2R DRAG_THRESHOLD) with 5%R; [reflexivity |].
  unfold DRAG_THRESHOLD, Q2R; simpl. rewrite Rinv_1. lra.
Qed.

Lemma within_threshold_iff (a b : IVec2) :
  gt (getDistance a b) DRAG_THRESHOLD = false <-> (euclidean a b <= 5)%R.
Proof.
  rewrite gt_false_iff, toR_getDistance.
  replace (Q2R DRAG_THRESHOLD) with 5%R; [reflexivity |].
  unfold DRAG_THRESHOLD, Q2R; simpl. rewrite Rinv_1. lra.
Qed.

End mathFacts.

(* ================================================================== *)
(** ** The input tracker *)

Section TrackerProperties.

Variable Angle : Type.
Variable getAngle : IVec2 -> Angle.
Variable zeroAngle : Angle.

Implicit Types (t : InputTracker Angle) (event : PointerEvent)
  (c : Call) (cs : list Call).

Lemma InputState_eqb_eq (a b : InputState) :
  InputState_eqb a b = true <-> a = b.
Proof. destruct a, b; simpl; split; congruence. Qed.

(** The state after the threshold test, and the fields the test leaves
    alone. *)
Lemma applyDragThreshold_state t :
  _state (applyDragThreshold t) =
    if InputState_eqb (_state t) eClicked
       && math.gt (math.getDistance (_absolutePosition t) (clickPosition t))
            DRAG_THRESHOLD
    then eDragging else _state t.
Proof.
  unfold applyDragThreshold.
  destruct (InputState_eqb (_state t) eClicked && _); reflexivity.
Qed.

Lemma applyDragThreshold_frame t :
  applyDragThreshold t = set_state (_state (applyDragThreshold t)) t.
Proof.
  unfold applyDragThreshold.
  destruct (InputState_eqb (_state t) eClicked && _); destruct t; reflexivity.
Qed.

(** An accepted event with a position: the handler returns, and this is
    the tracker it leaves and the one event it emits. *)
Lemma onMotionEvent_accepted t event a p :
  ignoreMotionEvents t <= 0 ->
  positionOf event = Some p ->
  onMotionEvent getAngle event a t =
    let t' := applyTurboOrRelease event
                (applyModifiers event
                   (applyDragThreshold (update getAngle p (Some a) t))) in
    Returned t'
      [PointerMotion (_absolutePosition t')
         (InputState_eqb (_state t') eDragging)].
Proof.
  intros Hign Hpos. unfold onMotionEvent, processMotion.
  replace (0 <? ignoreMotionEvents t) with false
    by (symmetry; apply Z.ltb_ge; exact Hign).
  rewrite Hpos. reflexivity.
Qed.

(** An event met while the ignore counter is positive is dropped. *)
Lemma onMotionEvent_ignored t event a :
  0 < ignoreMotionEvents t ->
  onMotionEvent getAngle event a t =
    Returned (set_ignoreMotionEvents (ignoreMotionEvents t - 1) t) [].
Proof.
  intros H. unfold onMotionEvent.
  replace (0 <? ignoreMotionEvents t) with true
    by (symmetry; apply Z.ltb_lt; exact H).
  reflexivity.
Qed.

Lemma turboMode_after_steps event t :
  turboMode (applyTurboOrRelease event (applyModifiers event t)) =
    (turboMode t
     || negb (_deferredTurboMode t) && anyModifier (modifiersOf event)).
Proof.
  unfold applyTurboOrRelease, applyModifiers.
  destruct t as [s ap rp an d df cp ig tm]; simpl.
  destruct df, tm, (anyModifier (modifiersOf event)); simpl;
    try reflexivity;
    destruct (mouseWithoutButtons event && InputState_eqb s eDragging);
    reflexivity.
Qed.

Lemma state_after_steps event t :
  _state (applyTurboOrRelease event (applyModifiers event t)) =
    if turboMode t
       || negb (_deferredTurboMode t) && anyModifier (modifiersOf event)
    then eDragging
    else if mouseWithoutButtons event && InputState_eqb (_state t) eDragging
         then eReleased else _state t.
Proof.
  unfold applyTurboOrRelease, applyModifiers.
  destruct t as [s ap rp an d df cp ig tm]; simpl.
  destruct df, tm, (anyModifier (modifiersOf event)); simpl;
    try reflexivity;
    destruct (mouseWithoutButtons event && InputState_eqb s eDragging);
    reflexivity.
Qed.

Lemma position_after_steps event t :
  _absolutePosition (applyTurboOrRelease event (applyModifiers event
                                                  (applyDragThreshold t))) =
    _absolutePosition t.
Proof.
  unfold applyTurboOrRelease, applyModifiers, applyDragThreshold.
  destruct t as [s ap rp an d df cp ig tm]; simpl.
  repeat match goal with
         | |- context [if ?b then _ else _] => destruct b; simpl
         end; reflexivity.
Qed.

Lemma deferral_after_steps event t :
  _deferredTurboMode (applyTurboOrRelease event (applyModifiers event
                                                   (applyDragThreshold t))) =
    _deferredTurboMode t.
Proof.
  unfold applyTurboOrRelease, applyModifiers, applyDragThreshold.
  destruct t as [s ap rp an d df cp ig tm]; simpl.
  repeat match goal with
         | |- context [if ?b then _ else _] => destruct b; simpl
         end; reflexivity.
Qed.

Lemma counter_after_steps event t :
  ignoreMotionEvents (applyTurboOrRelease event (applyModifiers event
                                                   (applyDragThreshold t))) =
    ignoreMotionEvents t.
Proof.
  unfold applyTurboOrRelease, applyModifiers, applyDragThreshold.
  destruct t as [s ap rp an d df cp ig tm]; simpl.
  repeat match goal with
         | |- context [if ?b then _ else _] => destruct b; simpl
         end; reflexivity.
Qed.

(** C5.  Every accepted motion event (the ignore counter is not positive and
    the event carries a position [p]) makes the handler return with exactly
    one pointer-motion notification, which carries the absolute position [p]
    and the boolean [state == Dragging].  With [mid] the state after the
    drag-threshold test: if turbo mode is active after the modifier update
    (in particular if it was active before) the state is Dragging whatever
    the buttons; otherwise a mouse event with no button held turns Dragging
    into Released; otherwise the state is [mid]. *)
Theorem accepted_motion_event t event a p :
  ignoreMotionEvents t <= 0 ->
  positionOf event = Some p ->
  exists t',
    onMotionEvent getAngle event a t =
      Returned t' [PointerMotion p (InputState_eqb (_state t') eDragging)]
    /\ _absolutePosition t' = p
    /\ turboMode t' =
         (turboMode t
          || negb (_deferredTurboMode t) && anyModifier (modifiersOf event))
    /\ (turboMode t = true -> _state t' = eDragging)
    /\ (turboMode t' = true -> _state t' = eDragging)
    /\ let mid := _state (applyDragThreshold (update getAngle p (Some a) t)) in
       (turboMode t' = false -> mouseWithoutButtons event = true ->
        mid = eDragging -> _state t' = eReleased)
       /\ (turboMode t' = false -> mouseWithoutButtons event = true ->
           _state t = eDragging -> _state t' = eReleased)
       /\ (turboMode t' = false ->
           mouseWithoutButtons event = false \/ mid <> eDragging ->
           _state t' = mid).
Proof.
  intros Hign Hpos.
  rewrite (onMotionEvent_accepted t event a p Hign Hpos). cbv zeta.
  set (u := applyDragThreshold (update getAngle p (Some a) t)).
  assert (Hturbo : turboMode u = turboMode t).
  { unfold u. rewrite applyDragThreshold_frame. reflexivity. }
  assert (Hdef : _deferredTurboMode u = _deferredTurboMode t).
  { unfold u. rewrite applyDragThreshold_frame. reflexivity. }
  assert (Habs :
            _absolutePosition (applyTurboOrRelease event (applyModifiers event u))
            = p).
  { unfold u. rewrite position_after_steps. reflexivity. }
  eexists. split; [rewrite Habs; reflexivity |].
  rewrite turboMode_after_steps, state_after_steps, Hturbo, Hdef.
  split; [exact Habs | split; [reflexivity |]].
  split; [intros ->; reflexivity |].
  split; [intros ->; reflexivity |].
  assert (Hkeep : _state t = eDragging -> _state u = eDragging).
  { intros Hs. unfold u. rewrite applyDragThreshold_state. simpl.
    rewrite Hs. reflexivity. }
  repeat split.
  - intros -> -> ->. reflexivity.
  - intros -> -> Hs. rewrite (Hkeep Hs). reflexivity.
  - intros -> [-> | Hmid]; [reflexivity |].
    destruct (_state u); try reflexivity; try congruence.
    + rewrite andb_false_r. reflexivity.
    + rewrite andb_false_r. reflexivity.
Qed.


(** C1, as the code has it.  For an accepted motion event met in state
    Clicked, with [d] the Euclidean distance of the event's position from
    the click origin: when turbo mode is not active after the modifier
    update, the state stays Clicked if [d <= 5] and leaves Clicked if
    [5 < d], for Dragging, or for Released when a mouse event reports no
    button held; when turbo mode is active the state is Dragging whatever
    the distance. *)
Theorem drag_threshold t event a p :
  ignoreMotionEvents t <= 0 ->
  positionOf event = Some p ->
  _state t = eClicked ->
  exists t' emitted,
    onMotionEvent getAngle event a t = Returned t' emitted
    /\ let d := math.euclidean p (clickPosition t) in
       let turbo :=
         turboMode t
         || negb (_deferredTurboMode t) && anyModifier (modifiersOf event) in
       (turbo = false -> (d <= 5)%R -> _state t' = eClicked)
       /\ (turbo = false -> (5 < d)%R -> mouseWithoutButtons event = false ->
           _state t' = eDragging)
       /\ (turbo = false -> (5 < d)%R -> mouseWithoutButtons event = true ->
           _state t' = eReleased)
       /\ (turbo = true -> _state t' = eDragging).
Proof.
  intros Hign Hpos Hst.
  rewrite (onMotionEvent_accepted t event a p Hign Hpos). cbv zeta.
  do 2 eexists. split; [reflexivity |].
  rewrite state_after_steps.
  set (u := applyDragThreshold (update getAngle p (Some a) t)).
  assert (Hturbo : turboMode u = turboMode t)
    by (unfold u; rewrite applyDragThreshold_frame; reflexivity).
  assert (Hdef : _deferredTurboMode u = _deferredTurboMode t)
    by (unfold u; rewrite applyDragThreshold_frame; reflexivity).
  assert (Hmid : _state u =
                 if math.gt (math.getDistance p (clickPosition t)) DRAG_THRESHOLD
                 then eDragging else eClicked).
  { unfold u. rewrite applyDragThreshold_state. simpl. rewrite Hst. simpl.
    destruct (math.gt _ _); reflexivity. }
  rewrite Hturbo, Hdef, Hmid.
  repeat split.
  - intros -> Hd. apply mathFacts.within_threshold_iff in Hd. rewrite Hd.
    rewrite andb_false_r. reflexivity.
  - intros -> Hd ->. apply mathFacts.exceeds_threshold_iff in Hd. rewrite Hd.
    reflexivity.
  - intros -> Hd ->. apply mathFacts.exceeds_threshold_iff in Hd. rewrite Hd.
    reflexivity.
  - intros ->. reflexivity.
Qed.

Lemma perform_motion_turbo t event a :
  turboMode t = true ->
  turboMode (trackerOf (onMotionEvent getAngle event a t)) = true.
Proof.
  intros H. unfold onMotionEvent, processMotion.
  destruct (0 <? ignoreMotionEvents t); [exact H |].
  destruct (positionOf event) as [p |]; [| exact H]. simpl.
  rewrite turboMode_after_steps, applyDragThreshold_frame. simpl.
  rewrite H. reflexivity.
Qed.

(** C2, as the code has it.  Once [turboMode] is true, no sequence of
    [onMotionEvent] calls sets it back to false, whatever the events; and a
    single call of the public interface leaves it false exactly when the
    call is [onKeyUpEvent] with no modifier still held or an assignment to
    [deferredTurboMode]. *)
Theorem turbo_mode_latch t events c :
  turboMode t = true ->
  turboMode (performAll getAngle (motionCalls events) t) = true
  /\ (turboMode (trackerOf (perform getAngle c t)) = false
      <-> clearsTurboMode c = true).
Proof.
  intros H. split.
  - revert t H. induction events as [| [e a] events IH]; intros t H.
    + exact H.
    + simpl. apply IH. apply perform_motion_turbo. exact H.
  - destruct c as [e a | e a | | | e | p a | | val]; simpl.
    + rewrite perform_motion_turbo by exact H. split; discriminate.
    + unfold onPointerDownEvent.
      destruct (positionOf e) as [p |]; simpl.
      * rewrite perform_motion_turbo by exact H. split; discriminate.
      * rewrite H. split; discriminate.
    + rewrite H. split; discriminate.
    + destruct (negb (_deferredTurboMode t)); simpl; rewrite ?H;
        split; discriminate.
    + destruct (anyModifier (keyMods e)); simpl; rewrite ?H;
        split; congruence.
    + rewrite H. split; discriminate.
    + rewrite H. split; discriminate.
    + split; reflexivity.
Qed.

Lemma perform_keeps_deferral c t :
  liftsDeferral c = false ->
  _deferredTurboMode t = true -> turboMode t = false ->
  _deferredTurboMode (trackerOf (perform getAngle c t)) = true
  /\ turboMode (trackerOf (perform getAngle c t)) = false.
Proof.
  intros Hc Hd Ht.
  assert (Hmotion : forall e a u,
             _deferredTurboMode u = true -> turboMode u = false ->
             _deferredTurboMode (trackerOf (onMotionEvent getAngle e a u)) = true
             /\ turboMode (trackerOf (onMotionEvent getAngle e a u)) = false).
  { intros e a u Hud Hut. unfold onMotionEvent, processMotion.
    destruct (0 <? ignoreMotionEvents u); [split; assumption |].
    destruct (positionOf e) as [p |]; [| split; assumption]. simpl.
    rewrite turboMode_after_steps, deferral_after_steps.
    rewrite (applyDragThreshold_frame (update getAngle p (Some a) u)).
    simpl. rewrite Hud, Hut. split; reflexivity. }
  destruct c as [e a | e a | | | e | p a | | val]; simpl in *.
  - apply Hmotion; assumption.
  - unfold onPointerDownEvent.
    destruct (positionOf e) as [p |]; [| split; assumption].
    apply Hmotion; assumption.
  - split; assumption.
  - rewrite Hd. simpl. split; assumption.
  - apply negb_false_iff in Hc. rewrite Hc. simpl. split; assumption.
  - split; assumption.
  - split; assumption.
  - apply negb_false_iff in Hc. subst val. split; reflexivity.
Qed.

Lemma performAll_keeps_deferral cs t :
  existsb liftsDeferral cs = false ->
  _deferredTurboMode t = true -> turboMode t = false ->
  _deferredTurboMode (performAll getAngle cs t) = true
  /\ turboMode (performAll getAngle cs t) = false.
Proof.
  revert t. induction cs as [| c cs IH]; intros t Hcs Hd Ht.
  - split; assumption.
  - simpl in Hcs. apply orb_false_iff in Hcs as [Hc Hcs]. simpl.
    destruct (perform_keeps_deferral c t Hc Hd Ht) as [Hd' Ht'].
    apply IH; assumption.
Qed.

Lemma performAll_app cs1 cs2 t :
  performAll getAngle (cs1 ++ cs2) t =
    performAll getAngle cs2 (performAll getAngle cs1 t).
Proof.
  revert t. induction cs1 as [| c cs1 IH]; intros t; simpl.
  - reflexivity.
  - apply IH.
Qed.

(** C3, as the code has it.  After [deferredTurboMode = true], key-downs do
    not activate turbo mode: it stays off, and the deferral on, through
    every sequence of calls that holds no key-up with all modifiers released
    (and no assignment of [false] to the setter); such a key-up ends the
    deferral, and the first key-down after it sets [turboMode]. *)
Theorem deferred_turbo_mode t cs e :
  existsb liftsDeferral cs = false ->
  anyModifier (keyMods e) = false ->
  let t1 := deferredTurboMode true t in
  turboMode (trackerOf (onKeyDownEvent t1)) = false
  /\ turboMode (performAll getAngle cs t1) = false
  /\ _deferredTurboMode (performAll getAngle cs t1) = true
  /\ turboMode (performAll getAngle (cs ++ [CallKeyUp e]) t1) = false
  /\ turboMode (performAll getAngle (cs ++ [CallKeyUp e; CallKeyDown]) t1)
     = true.
Proof.
  intros Hcs He t1.
  destruct (performAll_keeps_deferral cs t1 Hcs eq_refl eq_refl) as [Hd Ht].
  split; [reflexivity |].
  split; [exact Ht |].
  split; [exact Hd |].
  rewrite !performAll_app. simpl. rewrite He. simpl.
  split; reflexivity.
Qed.

(** C4.  After [ignoreNextMotionEvents()] the next two calls of
    [onMotionEvent] return without emitting anything and change nothing but
    the ignore counter, which goes to 1 and then to 0; the third call runs
    the body of the handler: for an event with a position it emits the
    pointer-motion notification. *)
Theorem ignore_next_two_motion_events t e1 a1 e2 a2 e3 a3 p :
  positionOf e3 = Some p ->
  trackerOf (ignoreNextMotionEvents t) = set_ignoreMotionEvents 2 t
  /\ onMotionEvent getAngle e1 a1 (set_ignoreMotionEvents 2 t) =
       Returned (set_ignoreMotionEvents 1 t) []
  /\ onMotionEvent getAngle e2 a2 (set_ignoreMotionEvents 1 t) =
       Returned (set_ignoreMotionEvents 0 t) []
  /\ performAll getAngle
       [CallIgnoreNextMotionEvents; CallMotion e1 a1; CallMotion e2 a2] t
     = set_ignoreMotionEvents 0 t
  /\ emittedAlong getAngle
       [CallIgnoreNextMotionEvents; CallMotion e1 a1; CallMotion e2 a2] t
     = []
  /\ onMotionEvent getAngle e3 a3 (set_ignoreMotionEvents 0 t) =
       processMotion getAngle e3 a3 (set_ignoreMotionEvents 0 t)
  /\ exists t',
       onMotionEvent getAngle e3 a3 (set_ignoreMotionEvents 0 t) =
         Returned t' [PointerMotion p (InputState_eqb (_state t') eDragging)]
       /\ _absolutePosition t' = p
       /\ ignoreMotionEvents t' = 0.
Proof.
  intros Hpos.
  do 6 (split; [reflexivity |]).
  rewrite (onMotionEvent_accepted (set_ignoreMotionEvents 0 t) e3 a3 p
             (Z.le_refl 0) Hpos).
  cbv zeta. rewrite position_after_steps. simpl.
  eexists. split; [reflexivity |].
  split; [apply position_after_steps |].
  apply counter_after_steps.
Qed.

(** C6.  [onPointerUpEvent] returns having set the state to Released; every
    other field is as before and nothing is emitted. *)
Theorem pointer_up_sets_released t :
  exists t',
    onPointerUpEvent t = Returned t' []
    /\ _state t' = eReleased
    /\ turboMode t' = turboMode t
    /\ _deferredTurboMode t' = _deferredTurboMode t
    /\ _absolutePosition t' = _absolutePosition t
    /\ _relativePosition t' = _relativePosition t
    /\ _distance t' = _distance t
    /\ _angle t' = _angle t
    /\ clickPosition t' = clickPosition t
    /\ ignoreMotionEvents t' = ignoreMotionEvents t.
Proof.
  exists (set_state eReleased t). repeat split.
Qed.

(** C9.  Assigning [deferredTurboMode] stores the value and sets
    [turboMode] to false, for either value and whatever the tracker held, a
    turbo gesture in progress included; the other fields are as before. *)
Theorem deferred_setter_clears_turbo (val : bool) t :
  let t' := deferredTurboMode val t in
  turboMode t' = false
  /\ _deferredTurboMode t' = val
  /\ _state t' = _state t
  /\ _absolutePosition t' = _absolutePosition t
  /\ _relativePosition t' = _relativePosition t
  /\ _distance t' = _distance t
  /\ _angle t' = _angle t
  /\ clickPosition t' = clickPosition t
  /\ ignoreMotionEvents t' = ignoreMotionEvents t.
Proof.
  repeat split.
Qed.

(** *** Further properties of the handlers *)

Lemma getDistance_self (p : IVec2) :
  math.gt (math.getDistance p p) DRAG_THRESHOLD = false.
Proof.
  apply mathFacts.within_threshold_iff. unfold math.euclidean.
  replace ((Q2R (x p) - Q2R (x p)) * (Q2R (x p) - Q2R (x p))
           + (Q2R (y p) - Q2R (y p)) * (Q2R (y p) - Q2R (y p)))%R
    with 0%R by ring.
  rewrite sqrt_0. lra.
Qed.

(** The fields of the tracker an accepted motion event leaves. *)
Lemma accepted_fields t event a p :
  let t' := applyTurboOrRelease event
              (applyModifiers event
                 (applyDragThreshold (update getAngle p (Some a) t))) in
  let mid :=
    if InputState_eqb (_state t) eClicked
       && math.gt (math.getDistance p (clickPosition t)) DRAG_THRESHOLD
    then eDragging else _state t in
  ignoreMotionEvents t' = ignoreMotionEvents t
  /\ _deferredTurboMode t' = _deferredTurboMode t
  /\ clickPosition t' = clickPosition t
  /\ _absolutePosition t' = p
  /\ turboMode t' =
       (turboMode t
        || negb (_deferredTurboMode t) && anyModifier (modifiersOf event))
  /\ _state t' =
       if turboMode t
          || negb (_deferredTurboMode t) && anyModifier (modifiersOf event)
       then eDragging
       else if mouseWithoutButtons event && InputState_eqb mid eDragging
            then eReleased else mid.
Proof.
  cbv zeta.
  rewrite counter_after_steps, deferral_after_steps, position_after_steps.
  rewrite turboMode_after_steps, state_after_steps.
  rewrite applyDragThreshold_state.
  rewrite (applyDragThreshold_frame (update getAngle p (Some a) t)).
  simpl.
  repeat split.
  unfold applyTurboOrRelease, applyModifiers.
  repeat match goal with
         | |- context [if ?b then _ else _] => destruct b; simpl
         end; reflexivity.
Qed.

(** The three ways [onMotionEvent] can go. *)
Lemma onMotionEvent_cases t event a :
  (0 < ignoreMotionEvents t
   /\ onMotionEvent getAngle event a t =
        Returned (set_ignoreMotionEvents (ignoreMotionEvents t - 1) t) [])
  \/ (ignoreMotionEvents t <= 0 /\ positionOf event = None
      /\ onMotionEvent getAngle event a t = Threw t)
  \/ (ignoreMotionEvents t <= 0
      /\ exists p, positionOf event = Some p
         /\ onMotionEvent getAngle event a t =
              let t' := applyTurboOrRelease event
                          (applyModifiers event
                             (applyDragThreshold
                                (update getAngle p (Some a) t))) in
              Returned t'
                [PointerMotion (_absolutePosition t')
                   (InputState_eqb (_state t') eDragging)]).
Proof.
  destruct (Z.lt_ge_cases 0 (ignoreMotionEvents t)) as [Hpos | Hle].
  - left. split; [exact Hpos | apply onMotionEvent_ignored; exact Hpos].
  - right. destruct (positionOf event) as [p |] eqn:E.
    + right. split; [exact Hle |]. exists p. split; [reflexivity |].
      apply onMotionEvent_accepted; assumption.
    + left. split; [exact Hle |]. split; [reflexivity |].
      unfold onMotionEvent, processMotion.
      replace (0 <? ignoreMotionEvents t) with false
        by (symmetry; apply Z.ltb_ge; exact Hle).
      rewrite E. reflexivity.
Qed.

(** X1.  A pointer-down that is not ignored and carries the position [p]
    records [p] as click origin and as absolute position, returns with one
    notification for [p], and leaves the state Clicked with the dragging
    flag down, unless turbo mode is on after the modifier update: then the
    state is Dragging and the flag is up.  The drag threshold never fires on
    the pointer-down itself. *)
Theorem pointer_down_accepted t event a p :
  ignoreMotionEvents t <= 0 ->
  positionOf event = Some p ->
  let turbo :=
    turboMode t
    || negb (_deferredTurboMode t) && anyModifier (modifiersOf event) in
  exists t',
    onPointerDownEvent getAngle event a t =
      Returned t' [PointerMotion p turbo]
    /\ clickPosition t' = p
    /\ _absolutePosition t' = p
    /\ turboMode t' = turbo
    /\ _state t' = (if turbo then eDragging else eClicked).
Proof.
  intros Hign Hpos. cbv zeta. unfold onPointerDownEvent. rewrite Hpos.
  rewrite (onMotionEvent_accepted
             (set_state eClicked (set_clickPosition p t)) event a p Hign Hpos).
  destruct (accepted_fields (set_state eClicked (set_clickPosition p t))
              event a p) as (_ & _ & Hclick & Habs & Hturbo & Hstate).
  cbv zeta in *. simpl in Hclick, Hturbo, Hstate.
  rewrite getDistance_self in Hstate. simpl in Hstate.
  rewrite andb_false_r in Hstate.
  match goal with |- context [Returned ?u _] => exists u end.
  rewrite Habs, Hstate, Hturbo, Hclick.
  destruct (turboMode t
            || negb (_deferredTurboMode t) && anyModifier (modifiersOf event));
    repeat split.
Qed.

(** X2.  A pointer-down met while motion events are being ignored uses up
    one of them: the click origin is recorded and the state is Clicked, but
    nothing is emitted, the absolute position and turbo mode stay as they
    were, and the counter goes down by one. *)
Theorem pointer_down_ignored t event a p :
  0 < ignoreMotionEvents t ->
  positionOf event = Some p ->
  exists t',
    onPointerDownEvent getAngle event a t = Returned t' []
    /\ clickPosition t' = p
    /\ _state t' = eClicked
    /\ _absolutePosition t' = _absolutePosition t
    /\ turboMode t' = turboMode t
    /\ ignoreMotionEvents t' = ignoreMotionEvents t - 1.
Proof.
  intros Hign Hpos. unfold onPointerDownEvent. rewrite Hpos.
  rewrite onMotionEvent_ignored by exact Hign.
  eexists. repeat split.
Qed.

Lemma perform_counter_bounds c t :
  0 <= ignoreMotionEvents t <= 2 ->
  0 <= ignoreMotionEvents (trackerOf (perform getAngle c t)) <= 2.
Proof.
  intros H.
  assert (Hmotion : forall e a u,
             0 <= ignoreMotionEvents u <= 2 ->
             0 <= ignoreMotionEvents
                    (trackerOf (onMotionEvent getAngle e a u)) <= 2).
  { intros e a u Hu.
    destruct (onMotionEvent_cases u e a)
      as [[Hpos ->] | [(_ & _ & ->) | (_ & p & _ & ->)]]; simpl.
    - lia.
    - exact Hu.
    - rewrite counter_after_steps. exact Hu. }
  destruct c as [e a | e a | | | e | p a | | val]; simpl.
  - apply Hmotion; exact H.
  - unfold onPointerDownEvent. destruct (positionOf e); [| exact H].
    apply Hmotion; exact H.
  - exact H.
  - destruct (negb (_deferredTurboMode t)); exact H.
  - destruct (negb (anyModifier (keyMods e))); exact H.
  - exact H.
  - lia.
  - exact H.
Qed.

(** X3.  The ignore counter stays between 0 and 2 along every sequence of
    calls on a tracker whose counter is within these bounds, as that of a new
    tracker is: the guard of [onMotionEvent] never takes it below 0. *)
Theorem ignore_counter_bounds cs t :
  0 <= ignoreMotionEvents t <= 2 ->
  0 <= ignoreMotionEvents (performAll getAngle cs t) <= 2.
Proof.
  revert t. induction cs as [| c cs IH]; intros t H; simpl.
  - exact H.
  - apply IH. apply perform_counter_bounds. exact H.
Qed.

Lemma perform_deferral_excludes_turbo c t :
  _deferredTurboMode t && turboMode t = false ->
  _deferredTurboMode (trackerOf (perform getAngle c t))
  && turboMode (trackerOf (perform getAngle c t)) = false.
Proof.
  intros H.
  assert (Hmotion : forall e a u,
             _deferredTurboMode u && turboMode u = false ->
             _deferredTurboMode (trackerOf (onMotionEvent getAngle e a u))
             && turboMode (trackerOf (onMotionEvent getAngle e a u)) = false).
  { intros e a u Hu.
    destruct (onMotionEvent_cases u e a)
      as [[Hpos ->] | [(_ & _ & ->) | (_ & p & _ & ->)]]; simpl;
      try exact Hu.
    destruct (accepted_fields u e a p) as (_ & Hdef & _ & _ & Hturbo & _).
    cbv zeta in Hdef, Hturbo. rewrite Hdef, Hturbo.
    destruct (_deferredTurboMode u), (turboMode u); simpl in *;
      congruence. }
  destruct c as [e a | e a | | | e | p a | | val]; simpl.
  - apply Hmotion; exact H.
  - unfold onPointerDownEvent. destruct (positionOf e); [| exact H].
    apply Hmotion; exact H.
  - exact H.
  - destruct (_deferredTurboMode t) eqn:E; simpl; [rewrite E; exact H |].
    rewrite E. reflexivity.
  - destruct (negb (anyModifier (keyMods e))); [reflexivity | exact H].
  - exact H.
  - exact H.
  - apply andb_false_r.
Qed.

(** X4.  Deferral and turbo mode exclude each other: if they are not both
    on, as in a new tracker, no sequence of calls turns both on.  While
    turbo mode is deferred it is off. *)
Theorem deferral_excludes_turbo cs t :
  _deferredTurboMode t && turboMode t = false ->
  _deferredTurboMode (performAll getAngle cs t)
  && turboMode (performAll getAngle cs t) = false.
Proof.
  revert t. induction cs as [| c cs IH]; intros t H; simpl.
  - exact H.
  - apply IH. apply perform_deferral_excludes_turbo. exact H.
Qed.

(** X5.  A call emits nothing or exactly one pointer-motion notification;
    only [onMotionEvent] and [onPointerDownEvent] emit, and what they emit
    is what the getters show when the handler has returned: the absolute
    position and whether the state is Dragging. *)
Theorem emission_matches_tracker c t :
  emittedBy (perform getAngle c t) = []
  \/ (emitsMotion c = true
      /\ emittedBy (perform getAngle c t) =
           [PointerMotion
              (_absolutePosition (trackerOf (perform getAngle c t)))
              (InputState_eqb (_state (trackerOf (perform getAngle c t)))
                 eDragging)]).
Proof.
  assert (Hmotion : forall e a u,
             emittedBy (onMotionEvent getAngle e a u) = []
             \/ emittedBy (onMotionEvent getAngle e a u) =
                  [PointerMotion
                     (_absolutePosition
                        (trackerOf (onMotionEvent getAngle e a u)))
                     (InputState_eqb
                        (_state (trackerOf (onMotionEvent getAngle e a u)))
                        eDragging)]).
  { intros e a u.
    destruct (onMotionEvent_cases u e a)
      as [[Hpos ->] | [(_ & _ & ->) | (_ & p & _ & ->)]]; simpl; auto. }
  destruct c as [e a | e a | | | e | p a | | val]; simpl; auto.
  - destruct (Hmotion e a t) as [H | H]; auto.
  - unfold onPointerDownEvent. destruct (positionOf e) as [p |]; simpl; auto.
    destruct (Hmotion e a (set_state eClicked (set_clickPosition p t)))
      as [H | H]; auto.
Qed.

(** X6.  Only a pointer-down makes the state Clicked: a call that finds
    another state and leaves Clicked is [onPointerDownEvent]. *)
Theorem clicked_only_by_pointer_down c t :
  _state t <> eClicked ->
  _state (trackerOf (perform getAngle c t)) = eClicked ->
  exists event a, c = CallPointerDown event a.
Proof.
  intros Hbefore Hafter.
  destruct c as [e a | e a | | | e | p a | | val]; simpl in Hafter;
    try discriminate; try (exfalso; apply Hbefore; exact Hafter).
  - exfalso.
    destruct (onMotionEvent_cases t e a)
      as [[Hpos Heq] | [(_ & _ & Heq) | (_ & p & _ & Heq)]];
      rewrite Heq in Hafter; simpl in Hafter;
      try (apply Hbefore; exact Hafter).
    destruct (accepted_fields t e a p) as (_ & _ & _ & _ & _ & Hstate).
    cbv zeta in Hstate. rewrite Hstate in Hafter.
    destruct (_state t); try congruence; simpl in Hafter;
      repeat match type of Hafter with
             | context [if ?b then _ else _] => destruct b; simpl in Hafter
             end; congruence.
  - exists e, a. reflexivity.
  - exfalso. destruct (negb (_deferredTurboMode t)); apply Hbefore;
      exact Hafter.
  - exfalso. destruct (negb (anyModifier (keyMods e))); apply Hbefore;
      exact Hafter.
Qed.

Lemma performAll_cons c cs t :
  performAll getAngle (c :: cs) t =
    performAll getAngle cs (trackerOf (perform getAngle c t)).
Proof. reflexivity. Qed.

Lemma motion_keeps_drag t e a :
  ignoreMotionEvents t <= 0 ->
  _state t = eDragging ->
  keepsButtonDown (e, a) = true ->
  exists t' p,
    onMotionEvent getAngle e a t = Returned t' [PointerMotion p true]
    /\ ignoreMotionEvents t' <= 0
    /\ _state t' = eDragging.
Proof.
  intros Hign Hst Hkeep. unfold keepsButtonDown in Hkeep. simpl in Hkeep.
  destruct (positionOf e) as [p |] eqn:Hpos; [| discriminate].
  apply negb_true_iff in Hkeep.
  rewrite (onMotionEvent_accepted t e a p Hign Hpos). cbv zeta.
  destruct (accepted_fields t e a p) as (Hc & _ & _ & Habs & _ & Hstate).
  cbv zeta in *. rewrite Hst, Hkeep in Hstate. simpl in Hstate.
  assert (Hdrag : _state
                    (applyTurboOrRelease e
                       (applyModifiers e
                          (applyDragThreshold (update getAngle p (Some a) t))))
                  = eDragging).
  { rewrite Hstate. destruct (turboMode t || _); reflexivity. }
  match goal with |- context [Returned ?u _] => exists u, p end.
  rewrite Hdrag, Hc, Habs. simpl.
  split; [reflexivity | split; [exact Hign | reflexivity]].
Qed.

(** X7.  A drag lasts: from state Dragging with no motion event to ignore,
    every run of motion events that are touch moves or mouse moves with a
    button held (each with a position) leaves the state Dragging, whatever
    the modifiers, and each event of the run is notified once with the
    dragging flag up. *)
Theorem drag_persists (events : list (PointerEvent * IVec2)) t :
  ignoreMotionEvents t <= 0 ->
  _state t = eDragging ->
  forallb keepsButtonDown events = true ->
  _state (performAll getAngle (motionCalls events) t) = eDragging
  /\ List.length (emittedAlong getAngle (motionCalls events) t)
     = List.length events
  /\ forallb draggingFlag (emittedAlong getAngle (motionCalls events) t)
     = true.
Proof.
  revert t. induction events as [| [e a] events IH]; intros t Hign Hst Hall.
  - simpl. auto.
  - simpl in Hall. apply andb_true_iff in Hall as [Hkeep Hall].
    destruct (motion_keeps_drag t e a Hign Hst Hkeep)
      as (t' & p & Hret & Hign' & Hst').
    simpl. rewrite Hret. simpl.
    destruct (IH t' Hign' Hst' Hall) as (H1 & H2 & H3).
    rewrite H2, H3. auto.
Qed.

Lemma motion_keeps_click t e a (origin : IVec2) :
  ignoreMotionEvents t <= 0 ->
  _state t = eClicked ->
  turboMode t = false ->
  clickPosition t = origin ->
  staysWithin origin (e, a) = true ->
  exists t' p,
    onMotionEvent getAngle e a t = Returned t' [PointerMotion p false]
    /\ ignoreMotionEvents t' <= 0
    /\ _state t' = eClicked
    /\ turboMode t' = false
    /\ clickPosition t' = origin.
Proof.
  intros Hign Hst Hturbo Hclick Hin. unfold staysWithin in Hin. simpl in Hin.
  destruct (positionOf e) as [p |] eqn:Hpos; [| discriminate].
  apply andb_true_iff in Hin as [Hd Hm].
  apply negb_true_iff in Hd. apply negb_true_iff in Hm.
  rewrite (onMotionEvent_accepted t e a p Hign Hpos). cbv zeta.
  destruct (accepted_fields t e a p) as (Hc & _ & Hcl & Habs & Htu & Hstate).
  cbv zeta in *.
  rewrite Hst, Hturbo, Hm, Hclick, Hd in Hstate.
  rewrite Hturbo, Hm in Htu.
  rewrite andb_false_r in Hstate, Htu. simpl in Hstate, Htu.
  rewrite andb_false_r in Hstate.
  match goal with |- context [Returned ?u _] => exists u, p end.
  rewrite Hstate, Hc, Htu, Hcl, Habs. simpl.
  split; [reflexivity | auto].
Qed.

(** X13.  A click survives jitter: from state Clicked with turbo mode off
    and no motion event to ignore, every run of motion events with no
    modifier held whose positions are within 5 px of the click origin leaves
    the state Clicked, also when a mouse event reports no button held, and
    each event is notified once with the dragging flag down. *)
Theorem click_survives_jitter (events : list (PointerEvent * IVec2)) t :
  ignoreMotionEvents t <= 0 ->
  _state t = eClicked ->
  turboMode t = false ->
  forallb (staysWithin (clickPosition t)) events = true ->
  _state (performAll getAngle (motionCalls events) t) = eClicked
  /\ List.length (emittedAlong getAngle (motionCalls events) t)
     = List.length events
  /\ existsb draggingFlag (emittedAlong getAngle (motionCalls events) t)
     = false.
Proof.
  remember (clickPosition t) as origin eqn:Horigin.
  symmetry in Horigin. revert t Horigin.
  induction events as [| [e a] events IH];
    intros t Horigin Hign Hst Hturbo Hall.
  - simpl. auto.
  - simpl in Hall. apply andb_true_iff in Hall as [Hin Hall].
    destruct (motion_keeps_click t e a origin Hign Hst Hturbo Horigin Hin)
      as (t' & p & Hret & Hign' & Hst' & Hturbo' & Horigin').
    simpl. rewrite Hret. simpl.
    destruct (IH t' Horigin' Hign' Hst' Hturbo' Hall) as (H1 & H2 & H3).
    rewrite H2, H3. auto.
Qed.

(** X9.  A handler throws only when [onMotionEvent] or
    [onPointerDownEvent] is given an event without a position (a touch event
    with no touch point), and then the tracker is as it was before the
    call. *)
Theorem throws_only_without_position c t t' :
  perform getAngle c t = Threw t' ->
  t' = t
  /\ exists event a,
       (c = CallMotion event a \/ c = CallPointerDown event a)
       /\ positionOf event = None.
Proof.
  intros H.
  destruct c as [e a | e a | | | e | p a | | val]; simpl in H;
    try discriminate.
  - destruct (onMotionEvent_cases t e a)
      as [[_ Heq] | [(_ & Hnone & Heq) | (_ & p & _ & Heq)]];
      rewrite Heq in H; try discriminate.
    injection H as <-. split; [reflexivity |]. exists e, a. auto.
  - unfold onPointerDownEvent in H.
    destruct (positionOf e) as [p |] eqn:Hpos.
    + exfalso.
      destruct (onMotionEvent_cases
                  (set_state eClicked (set_clickPosition p t)) e a)
        as [[_ Heq] | [(_ & Hnone & Heq) | (_ & q & _ & Heq)]];
        rewrite Heq in H; congruence.
    + injection H as <-. split; [reflexivity |]. exists e, a. auto.
Qed.

(** X11.  The keyboard handlers touch turbo mode and its deferral only:
    along every sequence of key-down and key-up calls the state, the
    positions, distance and angle, the click origin and the ignore counter
    stay as they were and nothing is emitted. *)
Theorem key_calls_frame cs t :
  forallb isKeyCall cs = true ->
  _state (performAll getAngle cs t) = _state t
  /\ _absolutePosition (performAll getAngle cs t) = _absolutePosition t
  /\ _relativePosition (performAll getAngle cs t) = _relativePosition t
  /\ _distance (performAll getAngle cs t) = _distance t
  /\ _angle (performAll getAngle cs t) = _angle t
  /\ clickPosition (performAll getAngle cs t) = clickPosition t
  /\ ignoreMotionEvents (performAll getAngle cs t) = ignoreMotionEvents t
  /\ emittedAlong getAngle cs t = [].
Proof.
  revert t. induction cs as [| c cs IH]; intros t Hall.
  - simpl. repeat split.
  - simpl in Hall. apply andb_true_iff in Hall as [Hc Hall].
    rewrite performAll_cons.
    destruct (IH (trackerOf (perform getAngle c t)) Hall)
      as (H1 & H2 & H3 & H4 & H5 & H6 & H7 & H8).
    rewrite H1, H2, H3, H4, H5, H6, H7. simpl. rewrite H8.
    destruct c as [e a | e a | | | e | p a | | val]; try discriminate; simpl.
    + destruct (negb (_deferredTurboMode t)); repeat split.
    + destruct (negb (anyModifier (keyMods e))); repeat split.
Qed.

(** X12.  A turbo gesture ends at the first motion after the modifiers are
    released: the key-up with no modifier held clears turbo mode but leaves
    the state Dragging; the next accepted mouse motion with no button and no
    modifier held makes it Released and is notified with the dragging flag
    down. *)
Theorem turbo_gesture_ends_on_motion t (e : KeyboardEvent) event a p :
  _state t = eDragging ->
  ignoreMotionEvents t <= 0 ->
  anyModifier (keyMods e) = false ->
  positionOf event = Some p ->
  anyModifier (modifiersOf event) = false ->
  mouseWithoutButtons event = true ->
  _state (trackerOf (onKeyUpEvent e t)) = eDragging
  /\ turboMode (trackerOf (onKeyUpEvent e t)) = false
  /\ exists t',
       onMotionEvent getAngle event a (trackerOf (onKeyUpEvent e t)) =
         Returned t' [PointerMotion p false]
       /\ _state t' = eReleased
       /\ turboMode t' = false.
Proof.
  intros Hst Hign He Hpos Hmods Hbuttons.
  unfold onKeyUpEvent. rewrite He. simpl.
  split; [exact Hst |]. split; [reflexivity |].
  set (u := set_turboMode false (set__deferredTurboMode false t)).
  rewrite (onMotionEvent_accepted u event a p Hign Hpos). cbv zeta.
  destruct (accepted_fields u event a p) as (_ & _ & _ & Habs & Htu & Hstate).
  cbv zeta in *. simpl in Htu, Hstate.
  rewrite Hmods in Htu. rewrite Hmods, Hst, Hbuttons in Hstate.
  simpl in Htu, Hstate.
  match goal with |- context [Returned ?u _] => exists u end.
  rewrite Hstate, Habs, Htu. simpl.
  split; [reflexivity | auto].
Qed.

End TrackerProperties.

(* ================================================================== *)
(** ** Menu items *)

Section MenuItemProperties.

Variable Data : Type.

(** Induction over a menu-item tree, children included. *)
Lemma IMenuItem_tree_ind (P : IMenuItem Data -> Prop) :
  (forall ty d n ic it an, P (mkMenuItem ty d n ic it None an)) ->
  (forall ty d n ic it l an,
      Forall P l -> P (mkMenuItem ty d n ic it (Some l) an)) ->
  forall item, P item.
Proof.
  intros Hleaf Hnode.
  fix IH 1.
  intros [ty d n ic it [l |] an].
  - apply Hnode.
    induction l as [| child rest IHrest].
    + constructor.
    + constructor; [apply IH | exact IHrest].
  - apply Hleaf.
Qed.

Lemma map_fixes {A : Type} (f : A -> A) (l : list A) :
  Forall (fun a => f a = a) l -> map f l = l.
Proof.
  induction 1 as [| a l Ha _ IH]; simpl.
  - reflexivity.
  - rewrite Ha, IH. reflexivity.
Qed.

(** C10.  [deepCopyMenuItem] returns a value equal to its argument: the
    same type, data, name, icon, icon theme and angle, and children that
    are equal in turn. *)
Theorem deepCopyMenuItem_identity (item : IMenuItem Data) :
  deepCopyMenuItem item = item.
Proof.
  induction item as [ty d n ic it an | ty d n ic it l an IH]
    using IMenuItem_tree_ind.
  - reflexivity.
  - simpl. rewrite (map_fixes _ l IH). reflexivity.
Qed.

Lemma deepCopyMenuItem_fixes (item : IMenuItem Data) :
  deepCopyMenuItem item = item.
Proof.
  induction item as [ty d n ic it an | ty d n ic it l an IH]
    using IMenuItem_tree_ind.
  - reflexivity.
  - simpl. rewrite (map_fixes _ l IH). reflexivity.
Qed.

(** X10.  [deepCopyMenu] returns a value equal to its argument: the root
    tree, the shortcut and its id, the two flags and the conditions, so that
    copying a list of menus gives the list back. *)
Theorem deepCopyMenu_identity (menus : list (IMenu Data)) :
  map deepCopyMenu menus = menus
  /\ forall menu : IMenu Data, deepCopyMenu menu = menu.
Proof.
  assert (H : forall menu : IMenu Data, deepCopyMenu menu = menu).
  { intros [r sc id ce an co]. unfold deepCopyMenu. simpl.
    rewrite deepCopyMenuItem_fixes. reflexivity. }
  split; [| exact H].
  apply map_fixes. apply Forall_forall. intros menu _. apply H.
Qed.

End MenuItemProperties.

(* ================================================================== *)
(** ** The layout resolver *)

Module LayoutFacts.

Import Layout.

Lemma firstFixed_none (items : list Sibling) :
  existsb isFixed items = false -> firstFixed items = None.
Proof.
  induction items as [| [a |] rest IH]; simpl; intros H.
  - reflexivity.
  - discriminate.
  - rewrite (IH H). reflexivity.
Qed.

Lemma evenlyFrom_length (k n : nat) (items : list Sibling) :
  List.length (evenlyFrom k n items) = List.length items.
Proof.
  revert k. induction items as [| s rest IH]; intros k; simpl.
  - reflexivity.
  - rewrite IH. reflexivity.
Qed.

Lemma evenlyFrom_nth (k n : nat) (items : list Sibling) (i : nat) :
  (i < List.length items)%nat ->
  nth_error (evenlyFrom k n items) i =
    Some (inject_Z (Z.of_nat (k + i)) * 360 / inject_Z (Z.of_nat n))%Q.
Proof.
  revert k i. induction items as [| s rest IH]; intros k i Hi; simpl in Hi.
  - lia.
  - destruct i as [| i]; simpl.
    + rewrite Nat.add_0_r. reflexivity.
    + rewrite IH by lia. rewrite Nat.add_succ_r. reflexivity.
Qed.

(** Without fixed items the angles depend on the number of siblings only. *)
Lemma evenlyFrom_same_length (k n : nat) (items items' : list Sibling) :
  List.length items = List.length items' ->
  evenlyFrom k n items = evenlyFrom k n items'.
Proof.
  revert k items'. induction items as [| s rest IH]; intros k [| s' rest'] H;
    simpl in *; try discriminate.
  - reflexivity.
  - rewrite (IH (S k) rest') by congruence. reflexivity.
Qed.

(** C8.  For a sibling list none of whose items carries a fixed angle the
    resolver returns one angle per sibling and gives item [i] the angle
    [i * 360 / n]; a single such item gets 0; and the output is determined
    by the input, so that resolving again (the same list, or any list of as
    many free siblings) gives the same angles. *)
Theorem free_siblings_evenly_spaced (items : list Sibling) (i : nat) :
  existsb isFixed items = false ->
  (i < List.length items)%nat ->
  List.length (computeItemAngles items) = List.length items
  /\ nth_error (computeItemAngles items) i =
       Some (inject_Z (Z.of_nat i) * 360
             / inject_Z (Z.of_nat (List.length items)))%Q
  /\ (List.length items = 1%nat ->
      exists q, computeItemAngles items = [q] /\ (q == 0)%Q)
  /\ computeItemAngles items = computeItemAngles items
  /\ (forall items',
         existsb isFixed items' = false ->
         List.length items' = List.length items ->
         computeItemAngles items' = computeItemAngles items).
Proof.
  intros Hfree Hi. unfold computeItemAngles.
  rewrite (firstFixed_none items Hfree).
  split; [apply evenlyFrom_length |].
  split; [apply (evenlyFrom_nth 0 _ items i Hi) |].
  split.
  - intros Hone. destruct items as [| s [| s' rest]]; try discriminate.
    simpl. eexists. split; [reflexivity | reflexivity].
  - split; [reflexivity |].
    intros items' Hfree' Hlen.
    rewrite (firstFixed_none items' Hfree'), Hlen.
    apply evenlyFrom_same_length. exact Hlen.
Qed.

End LayoutFacts.

(* ================================================================== *)
(** ** The menu selector *)

Module SelectorFacts.

Import Selector.

Lemma nth_error_snoc {A : Type} (l : list A) (a b : A) (j : nat) :
  nth_error (l ++ [a]) j = Some b ->
  ((j < List.length l)%nat /\ nth_error l j = Some b)
  \/ (j = List.length l /\ a = b).
Proof.
  intros H.
  destruct (Nat.lt_ge_cases j (List.length l)) as [Hlt | Hge].
  - left. rewrite nth_error_app1 in H by exact Hlt. auto.
  - right. rewrite nth_error_app2 in H by exact Hge.
    destruct (j - List.length l)%nat as [| k] eqn:E; simpl in H.
    + split; [lia | congruence].
    + destruct k; discriminate.
Qed.

Lemma nth_error_snoc_last {A : Type} (l : list A) (a : A) :
  nth_error (l ++ [a]) (List.length l) = Some a.
Proof.
  rewrite nth_error_app2 by lia. rewrite Nat.sub_diag. reflexivity.
Qed.

(** One step of the scan keeps the summary of what has been seen. *)
Lemma keepBest_summarises (scores : list (option nat))
    (best : option (nat * nat)) (score : option nat) :
  summarises scores best ->
  summarises (scores ++ [score]) (keepBest best (List.length scores) score).
Proof.
  intros Hsum.
  destruct score as [s |]; destruct best as [[i bs] |]; simpl in *.
  - destruct Hsum as [Hi Hmax].
    assert (Hlt : (i < List.length scores)%nat)
      by (apply nth_error_Some; congruence).
    destruct (Nat.ltb_spec bs s) as [Hbs | Hbs]; simpl.
    + split; [apply nth_error_snoc_last |].
      intros j s' Hj. apply nth_error_snoc in Hj as [[Hjl Hj] | [Hjl Hj]].
      * destruct (Hmax j s' Hj). lia.
      * injection Hj as <-. lia.
    + split; [rewrite nth_error_app1 by exact Hlt; exact Hi |].
      intros j s' Hj. apply nth_error_snoc in Hj as [[Hjl Hj] | [Hjl Hj]].
      * apply Hmax; exact Hj.
      * injection Hj as <-. lia.
  - split; [apply nth_error_snoc_last |].
    intros j s' Hj. apply nth_error_snoc in Hj as [[Hjl Hj] | [Hjl Hj]].
    + exfalso. exact (Hsum j s' Hj).
    + injection Hj as <-. lia.
  - destruct Hsum as [Hi Hmax].
    assert (Hlt : (i < List.length scores)%nat)
      by (apply nth_error_Some; congruence).
    split; [rewrite nth_error_app1 by exact Hlt; exact Hi |].
    intros j s' Hj. apply nth_error_snoc in Hj as [[Hjl Hj] | [Hjl Hj]].
    + apply Hmax; exact Hj.
    + discriminate.
  - intros j s' Hj. apply nth_error_snoc in Hj as [[Hjl Hj] | [Hjl Hj]].
    + exact (Hsum j s' Hj).
    + discriminate.
Qed.

Section WithRegex.

Variable regexTest : string -> string -> bool.
Variable toLowerCase : string -> string.
Variable Data : Type.

Implicit Types (request : IShowMenuRequest.t) (ctx : Context)
  (menu : IMenu Data) (menus : list (IMenu Data)).

Lemma scan_summarises request ctx menus :
  forall (seen : list (IMenu Data)) (best : option (nat * nat)),
    summarises (map (survives regexTest toLowerCase request ctx) seen) best ->
    summarises (map (survives regexTest toLowerCase request ctx) (seen ++ menus))
      (scan regexTest toLowerCase request ctx best (List.length seen) menus).
Proof.
  induction menus as [| menu rest IH]; intros seen best Hsum; simpl.
  - rewrite app_nil_r. exact Hsum.
  - replace (seen ++ menu :: rest) with ((seen ++ [menu]) ++ rest)
      by (rewrite <- app_assoc; reflexivity).
    replace (S (List.length seen)) with (List.length (seen ++ [menu]))
      by (rewrite length_app; simpl; lia).
    apply IH. rewrite map_app. simpl.
    rewrite <- (length_map (survives regexTest toLowerCase request ctx) seen).
    apply keepBest_summarises. exact Hsum.
Qed.

(** A menu survives with score [s] exactly when its trigger matches, every
    condition field it has is satisfied, and [s] counts those fields. *)
Lemma survives_iff request ctx menu (s : nat) :
  survives regexTest toLowerCase request ctx menu = Some s <->
  triggerMatches request menu = true
  /\ match conditions menu with
     | None => s = 0%nat
     | Some c =>
         forallb (fun b => b) (presentFields regexTest toLowerCase c ctx) = true
         /\ s = List.length (presentFields regexTest toLowerCase c ctx)
     end.
Proof.
  unfold survives, specificity.
  destruct (triggerMatches request menu); [| split; [discriminate | intros [? _]; discriminate]].
  destruct (conditions menu) as [c |].
  - destruct (forallb (fun b => b) (presentFields regexTest toLowerCase c ctx)).
    + split; [intros [= <-]; auto | intros [_ [_ ->]]; reflexivity].
    + split; [discriminate | intros [_ [? _]]; discriminate].
  - split; [intros [= <-]; auto | intros [_ ->]; reflexivity].
Qed.

(** The selected index, in terms of the scores the scan computes. *)
Lemma scan_picks_best_survivor request ctx menus :
  match chooseMenuIndex regexTest toLowerCase request ctx menus with
  | Some i =>
      exists menu s,
        nth_error menus i = Some menu
        /\ chooseMenu regexTest toLowerCase request ctx menus = Some menu
        /\ survives regexTest toLowerCase request ctx menu = Some s
        /\ triggerMatches request menu = true
        /\ (forall c, conditions menu = Some c ->
                      forallb (fun b => b) (presentFields regexTest toLowerCase c ctx) = true
                      /\ s = List.length (presentFields regexTest toLowerCase c ctx))
        /\ (forall j menu' s',
               nth_error menus j = Some menu' ->
               survives regexTest toLowerCase request ctx menu' = Some s' ->
               (s' <= s)%nat /\ (j < i -> s' < s)%nat)
  | None =>
      chooseMenu regexTest toLowerCase request ctx menus = None
      /\ forall menu, In menu menus ->
                      survives regexTest toLowerCase request ctx menu = None
  end.
Proof.
  pose proof (scan_summarises request ctx menus [] None) as Hsum.
  simpl in Hsum.
  assert (Hnone : forall (j s : nat),
             nth_error (@nil (option nat)) j <> Some (Some s))
    by (intros [| j] s; discriminate).
  specialize (Hsum Hnone). clear Hnone.
  unfold chooseMenu, chooseMenuIndex.
  destruct (scan regexTest toLowerCase request ctx None 0 menus) as [[i s] |]; simpl in *.
  - destruct Hsum as [Hi Hmax].
    rewrite nth_error_map in Hi.
    destruct (nth_error menus i) as [menu |] eqn:Emenu; [| discriminate].
    simpl in Hi. injection Hi as Hi.
    exists menu, s. split; [reflexivity |]. split; [reflexivity |].
    split; [exact Hi |].
    pose proof (proj1 (survives_iff request ctx menu s) Hi) as [Htrig Hcond].
    split; [exact Htrig |].
    split.
    + intros c Hc. rewrite Hc in Hcond. exact Hcond.
    + intros j menu' s' Hj Hs'. apply Hmax.
      rewrite nth_error_map, Hj. simpl. rewrite Hs'. reflexivity.
  - split; [reflexivity |].
    intros menu Hin. apply In_nth_error in Hin as [j Hj].
    destruct (survives regexTest toLowerCase request ctx menu) as [s |] eqn:E;
      [| reflexivity].
    exfalso. apply (Hsum j s).
    rewrite nth_error_map, Hj. simpl. rewrite E. reflexivity.
Qed.

Lemma presentFields_satisfied (c : IMenuConditions) ctx :
  forallb (fun b => b) (presentFields regexTest toLowerCase c ctx) = true <->
  (forall w, windowName c = Some w ->
             stringMatches regexTest toLowerCase w (focusedWindowName ctx)
             = true)
  /\ (forall a, appName c = Some a ->
                stringMatches regexTest toLowerCase a (focusedAppName ctx)
                = true)
  /\ (forall area, screenArea c = Some area ->
                   areaMatches area (pointer ctx) = true).
Proof.
  unfold presentFields.
  destruct (windowName c) as [w |], (appName c) as [a |],
    (screenArea c) as [area |]; simpl;
    rewrite ?andb_true_r, ?andb_true_iff;
    (split;
     [ intros H; repeat split; intros ? [= <-]; tauto
     | intros (Hw & Ha & Hs);
       repeat split;
       first [ apply Hw; reflexivity | apply Ha; reflexivity
             | apply Hs; reflexivity ] ]).
Qed.

Lemma presentFields_count (c : IMenuConditions) ctx :
  List.length (presentFields regexTest toLowerCase c ctx) = fieldCount c.
Proof.
  unfold presentFields, fieldCount.
  destruct (windowName c), (appName c), (screenArea c); reflexivity.
Qed.

(** The score the scan gives a menu, in the words of the spec: the menu has
    a score exactly when its trigger matches and all its present condition
    fields are satisfied, and the score is the number of these fields. *)
Lemma survives_spec request ctx menu (s : nat) :
  survives regexTest toLowerCase request ctx menu = Some s <->
  triggerMatches request menu = true
  /\ fieldsSatisfied regexTest toLowerCase menu ctx
  /\ s = fieldsPresent menu.
Proof.
  rewrite survives_iff. unfold fieldsSatisfied, fieldsPresent.
  destruct (conditions menu) as [c |].
  - rewrite presentFields_satisfied, presentFields_count. tauto.
  - tauto.
Qed.

Lemma survives_none request ctx menu :
  survives regexTest toLowerCase request ctx menu = None ->
  triggerMatches request menu = true ->
  ~ fieldsSatisfied regexTest toLowerCase menu ctx.
Proof.
  intros Hnone Htrig Hsat.
  assert (H : survives regexTest toLowerCase request ctx menu
              = Some (fieldsPresent menu))
    by (apply survives_spec; auto).
  congruence.
Qed.

(** C7.  The selector returns a menu exactly when some menu of the list
    qualifies, that is, its trigger matches the request and every condition
    field it has is satisfied by the context.  The menu it returns
    qualifies; no qualifying menu has more condition fields (its score), and
    every qualifying menu declared before it has strictly fewer, so that
    among the qualifying menus with the highest score the earliest declared
    is chosen.  A menu with a present but unsatisfied condition field does
    not qualify, whatever its other fields, and is never returned. *)
Theorem selector_picks_most_specific request ctx menus :
  match chooseMenu regexTest toLowerCase request ctx menus with
  | Some chosen =>
      exists i,
        chooseMenuIndex regexTest toLowerCase request ctx menus = Some i
        /\ nth_error menus i = Some chosen
        /\ triggerMatches request chosen = true
        /\ fieldsSatisfied regexTest toLowerCase chosen ctx
        /\ (forall j menu,
               nth_error menus j = Some menu ->
               triggerMatches request menu = true ->
               fieldsSatisfied regexTest toLowerCase menu ctx ->
               (fieldsPresent menu <= fieldsPresent chosen)%nat
               /\ (j < i -> fieldsPresent menu < fieldsPresent chosen)%nat)
  | None =>
      forall menu,
        In menu menus ->
        triggerMatches request menu = true ->
        ~ fieldsSatisfied regexTest toLowerCase menu ctx
  end.
Proof.
  pose proof (scan_picks_best_survivor request ctx menus) as H.
  destruct (chooseMenuIndex regexTest toLowerCase request ctx menus)
    as [i |] eqn:Ei.
  - destruct H as (chosen & s & Hi & Hchosen & Hs & _ & _ & Hmax).
    rewrite Hchosen.
    apply survives_spec in Hs as (Htrig & Hsat & ->).
    exists i. repeat split; try assumption.
    + destruct (Hmax j menu (fieldsPresent menu) H) as [Hle _];
        [apply survives_spec; auto | exact Hle].
    + destruct (Hmax j menu (fieldsPresent menu) H) as [_ Hlt];
        [apply survives_spec; auto | exact Hlt].
  - destruct H as [Hnone Hall]. rewrite Hnone.
    intros menu Hin Htrig. apply (survives_none request ctx menu); auto.
Qed.

End WithRegex.

End SelectorFacts.

(* ================================================================== *)
(** ** The properties at concrete inputs *)

(** The scenario of the specification: pointer-down at (0,0), then a motion
    to (3,4), at distance 5, leaves the state Clicked. *)
Example click_then_motion_within_threshold :
  _state
    (performAll (fun _ : IVec2 => tt)
       [CallPointerDown (MouseEvent 0 0 1 noModifiers) (mkVec2 0 0);
        CallMotion (MouseEvent 3 4 1 noModifiers) (mkVec2 0 0)]
       (newTracker unit tt))
  = eClicked.
Proof. reflexivity. Qed.

(** And a motion to (6,8), at distance 10, gives Dragging. *)
Example click_then_motion_beyond_threshold :
  _state
    (performAll (fun _ : IVec2 => tt)
       [CallPointerDown (MouseEvent 0 0 1 noModifiers) (mkVec2 0 0);
        CallMotion (MouseEvent 3 4 1 noModifiers) (mkVec2 0 0);
        CallMotion (MouseEvent 6 8 1 noModifiers) (mkVec2 0 0)]
       (newTracker unit tt))
  = eDragging.
Proof. reflexivity. Qed.

(** C1 as the specification words it fails: after a pointer-down at (0,0)
    the state is Clicked; a motion to (3,4) with Shift held is accepted and
    stays at distance 5 of the click origin, and the state is Dragging. *)
Lemma drag_threshold_counterexample :
  _state
    (trackerOf
       (onPointerDownEvent (fun _ : IVec2 => tt)
          (MouseEvent 0 0 1 noModifiers) (mkVec2 0 0) (newTracker unit tt)))
  = eClicked
  /\ (math.euclidean (mkVec2 3 4) (mkVec2 0 0) <= 5)%R
  /\ _state
       (trackerOf
          (onMotionEvent (fun _ : IVec2 => tt)
             (MouseEvent 3 4 1 (mkModifiers false false true false))
             (mkVec2 0 0)
             (trackerOf
                (onPointerDownEvent (fun _ : IVec2 => tt)
                   (MouseEvent 0 0 1 noModifiers) (mkVec2 0 0)
                   (newTracker unit tt)))))
     = eDragging.
Proof.
  split; [reflexivity |].
  split; [| reflexivity].
  apply mathFacts.within_threshold_iff. reflexivity.
Qed.

Lemma drag_threshold_witness :
  exists t' emitted,
    onMotionEvent (fun _ : IVec2 => tt) (MouseEvent 6 8 1 noModifiers)
      (mkVec2 0 0)
      (set_state eClicked (newTracker unit tt))
    = Returned t' emitted
    /\ ((5 < math.euclidean (mkVec2 6 8) (mkVec2 0 0))%R ->
        _state t' = eDragging)
    /\ ((math.euclidean (mkVec2 6 8) (mkVec2 0 0) <= 5)%R ->
        _state t' = eClicked).
Proof.
  destruct (drag_threshold unit (fun _ => tt)
              (set_state eClicked (newTracker unit tt))
              (MouseEvent 6 8 1 noModifiers) (mkVec2 0 0) (mkVec2 6 8))
    as (t' & emitted & Hret & Hstay & Hdrag & _ & _).
  - simpl. lia.
  - reflexivity.
  - reflexivity.
  - exists t', emitted. split; [exact Hret |]. split.
    + intros Hd. apply Hdrag; [reflexivity | exact Hd | reflexivity].
    + intros Hd. apply Hstay; [reflexivity | exact Hd].
Defined.

(** C2 as the specification words it fails: with turbo mode on after a
    key-down, an assignment to [deferredTurboMode], which is no key-up,
    leaves [turboMode] false. *)
Lemma turbo_mode_latch_counterexample :
  turboMode (trackerOf (onKeyDownEvent (newTracker unit tt))) = true
  /\ turboMode
       (trackerOf
          (perform (fun _ : IVec2 => tt) (CallSetDeferredTurboMode false)
             (trackerOf (onKeyDownEvent (newTracker unit tt)))))
     = false
  /\ (forall e, CallSetDeferredTurboMode false <> CallKeyUp e).
Proof.
  split; [reflexivity |]. split; [reflexivity |]. discriminate.
Qed.

Lemma turbo_mode_latch_witness :
  turboMode
    (performAll (fun _ : IVec2 => tt)
       (motionCalls
          [(MouseEvent 1 1 0 noModifiers, mkVec2 0 0);
           (TouchEvent [] noModifiers, mkVec2 0 0);
           (TouchEvent [mkVec2 9 9] noModifiers, mkVec2 0 0)])
       (set_turboMode true (newTracker unit tt)))
  = true
  /\ (turboMode
        (trackerOf
           (perform (fun _ : IVec2 => tt)
              (CallKeyUp (mkKeyboardEvent noModifiers))
              (set_turboMode true (newTracker unit tt))))
      = false
      <-> clearsTurboMode (CallKeyUp (mkKeyboardEvent noModifiers)) = true).
Proof.
  apply (turbo_mode_latch unit (fun _ => tt)
           (set_turboMode true (newTracker unit tt))).
  reflexivity.
Defined.

(** C3 as the specification words it fails: the first key-down after
    [deferredTurboMode = true] leaves [turboMode] false. *)
Lemma deferred_turbo_mode_counterexample :
  turboMode
    (trackerOf (onKeyDownEvent (deferredTurboMode true (newTracker unit tt))))
  = false.
Proof. reflexivity. Qed.

Lemma deferred_turbo_mode_witness :
  turboMode
    (performAll (fun _ : IVec2 => tt)
       ([CallKeyDown;
         CallMotion (MouseEvent 1 1 0 (mkModifiers true false false false))
           (mkVec2 0 0);
         CallKeyUp (mkKeyboardEvent (mkModifiers true false false false))]
        ++ [CallKeyUp (mkKeyboardEvent noModifiers); CallKeyDown])
       (deferredTurboMode true (newTracker unit tt)))
  = true.
Proof.
  apply (deferred_turbo_mode unit (fun _ => tt) (newTracker unit tt)
           [CallKeyDown;
            CallMotion (MouseEvent 1 1 0 (mkModifiers true false false false))
              (mkVec2 0 0);
            CallKeyUp (mkKeyboardEvent (mkModifiers true false false false))]
           (mkKeyboardEvent noModifiers)).
  - reflexivity.
  - reflexivity.
Defined.

Lemma ignore_next_two_motion_events_witness :
  exists t',
    onMotionEvent (fun _ : IVec2 => tt) (MouseEvent 7 7 0 noModifiers)
      (mkVec2 0 0) (set_ignoreMotionEvents 0 (newTracker unit tt))
    = Returned t'
        [PointerMotion (mkVec2 7 7) (InputState_eqb (_state t') eDragging)]
    /\ _absolutePosition t' = mkVec2 7 7
    /\ ignoreMotionEvents t' = 0.
Proof.
  apply (ignore_next_two_motion_events unit (fun _ => tt)
           (newTracker unit tt)
           (MouseEvent 5 5 0 noModifiers) (mkVec2 0 0)
           (MouseEvent 6 6 0 noModifiers) (mkVec2 0 0)
           (MouseEvent 7 7 0 noModifiers) (mkVec2 0 0) (mkVec2 7 7)).
  reflexivity.
Defined.

Lemma accepted_motion_event_witness :
  exists t',
    onMotionEvent (fun _ : IVec2 => tt) (MouseEvent 6 8 0 noModifiers)
      (mkVec2 0 0) (set_state eDragging (newTracker unit tt))
    = Returned t'
        [PointerMotion (mkVec2 6 8) (InputState_eqb (_state t') eDragging)]
    /\ _state t' = eReleased.
Proof.
  destruct (accepted_motion_event unit (fun _ => tt)
              (set_state eDragging (newTracker unit tt))
              (MouseEvent 6 8 0 noModifiers) (mkVec2 0 0) (mkVec2 6 8))
    as (t' & Hret & _ & Hturbo & _ & _ & _ & Hrel & _).
  - simpl. lia.
  - reflexivity.
  - exists t'. split; [exact Hret |].
    apply Hrel; [rewrite Hturbo; reflexivity | reflexivity | reflexivity].
Defined.

Lemma free_siblings_evenly_spaced_witness :
  nth_error (Layout.computeItemAngles [None; None; None; None]) 1
  = Some (inject_Z 1 * 360 / inject_Z 4)%Q.
Proof.
  apply (LayoutFacts.free_siblings_evenly_spaced [None; None; None; None] 1).
  - reflexivity.
  - simpl. lia.
Defined.

(** The resolver on four free siblings, and around fixed angles. *)
Example four_free_siblings :
  map Qred (Layout.computeItemAngles [None; None; None; None])
  = [0; 90; 180; 270]%Q.
Proof. reflexivity. Qed.

Example one_fixed_sibling :
  map Qred (Layout.computeItemAngles [None; Some 90%Q; None])
  = [330; 90; 210]%Q.
Proof. reflexivity. Qed.

Example two_fixed_siblings :
  map Qred
    (Layout.computeItemAngles
       [None; Some 90%Q; None; None; Some 270%Q; None])
  = [30; 90; 150; 210; 270; 330]%Q.
Proof. reflexivity. Qed.

(** The further properties of the tracker at concrete inputs. *)

Lemma pointer_down_accepted_witness :
  exists t',
    onPointerDownEvent (fun _ : IVec2 => tt) (MouseEvent 10 20 1 noModifiers)
      (mkVec2 0 0) (newTracker unit tt)
    = Returned t' [PointerMotion (mkVec2 10 20) false]
    /\ clickPosition t' = mkVec2 10 20
    /\ _absolutePosition t' = mkVec2 10 20
    /\ turboMode t' = false
    /\ _state t' = eClicked.
Proof.
  apply (pointer_down_accepted unit (fun _ => tt) (newTracker unit tt)
           (MouseEvent 10 20 1 noModifiers) (mkVec2 0 0) (mkVec2 10 20)).
  - simpl. lia.
  - reflexivity.
Defined.

Lemma pointer_down_ignored_witness :
  exists t',
    onPointerDownEvent (fun _ : IVec2 => tt) (MouseEvent 10 20 1 noModifiers)
      (mkVec2 0 0) (set_ignoreMotionEvents 2 (newTracker unit tt))
    = Returned t' []
    /\ clickPosition t' = mkVec2 10 20
    /\ _state t' = eClicked
    /\ _absolutePosition t' = mkVec2 0 0
    /\ turboMode t' = false
    /\ ignoreMotionEvents t' = 1.
Proof.
  apply (pointer_down_ignored unit (fun _ => tt)
           (set_ignoreMotionEvents 2 (newTracker unit tt))
           (MouseEvent 10 20 1 noModifiers) (mkVec2 0 0) (mkVec2 10 20)).
  - simpl. lia.
  - reflexivity.
Defined.

Lemma ignore_counter_bounds_witness :
  0 <= ignoreMotionEvents
         (performAll (fun _ : IVec2 => tt)
            [CallIgnoreNextMotionEvents;
             CallMotion (MouseEvent 1 1 0 noModifiers) (mkVec2 0 0);
             CallPointerDown (TouchEvent [mkVec2 2 2] noModifiers) (mkVec2 0 0);
             CallMotion (MouseEvent 3 3 1 noModifiers) (mkVec2 0 0);
             CallMotion (TouchEvent [] noModifiers) (mkVec2 0 0)]
            (newTracker unit tt))
  <= 2.
Proof.
  apply (ignore_counter_bounds unit (fun _ => tt)).
  simpl. lia.
Defined.

Lemma deferral_excludes_turbo_witness :
  _deferredTurboMode
    (performAll (fun _ : IVec2 => tt)
       [CallKeyDown;
        CallSetDeferredTurboMode true;
        CallMotion (MouseEvent 1 1 0 (mkModifiers true false false false))
          (mkVec2 0 0);
        CallKeyDown]
       (newTracker unit tt))
  && turboMode
       (performAll (fun _ : IVec2 => tt)
          [CallKeyDown;
           CallSetDeferredTurboMode true;
           CallMotion (MouseEvent 1 1 0 (mkModifiers true false false false))
             (mkVec2 0 0);
           CallKeyDown]
          (newTracker unit tt))
  = false.
Proof.
  apply (deferral_excludes_turbo unit (fun _ => tt)).
  reflexivity.
Defined.

Lemma clicked_only_by_pointer_down_witness :
  exists event a,
    CallPointerDown (TouchEvent [mkVec2 4 4] noModifiers) (mkVec2 0 0)
    = CallPointerDown event a.
Proof.
  apply (clicked_only_by_pointer_down unit (fun _ => tt)
           (CallPointerDown (TouchEvent [mkVec2 4 4] noModifiers) (mkVec2 0 0))
           (newTracker unit tt)).
  - discriminate.
  - reflexivity.
Defined.

Lemma drag_persists_witness :
  _state
    (performAll (fun _ : IVec2 => tt)
       (motionCalls
          [(MouseEvent 1 1 1 noModifiers, mkVec2 0 0);
           (TouchEvent [mkVec2 50 50] noModifiers, mkVec2 0 0);
           (MouseEvent 9 9 2 (mkModifiers false false false true),
            mkVec2 0 0)])
       (set_state eDragging (newTracker unit tt)))
  = eDragging.
Proof.
  apply (drag_persists unit (fun _ => tt)
           [(MouseEvent 1 1 1 noModifiers, mkVec2 0 0);
            (TouchEvent [mkVec2 50 50] noModifiers, mkVec2 0 0);
            (MouseEvent 9 9 2 (mkModifiers false false false true),
             mkVec2 0 0)]
           (set_state eDragging (newTracker unit tt))).
  - simpl. lia.
  - reflexivity.
  - reflexivity.
Defined.

Lemma click_survives_jitter_witness :
  _state
    (performAll (fun _ : IVec2 => tt)
       (motionCalls
          [(MouseEvent 3 4 0 noModifiers, mkVec2 0 0);
           (TouchEvent [mkVec2 (-1) 2] noModifiers, mkVec2 0 0)])
       (set_state eClicked (newTracker unit tt)))
  = eClicked.
Proof.
  apply (click_survives_jitter unit (fun _ => tt)
           [(MouseEvent 3 4 0 noModifiers, mkVec2 0 0);
            (TouchEvent [mkVec2 (-1) 2] noModifiers, mkVec2 0 0)]
           (set_state eClicked (newTracker unit tt))).
  - simpl. lia.
  - reflexivity.
  - reflexivity.
  - reflexivity.
Defined.

Lemma throws_only_without_position_witness :
  newTracker unit tt = newTracker unit tt
  /\ exists event a,
       (CallPointerDown (TouchEvent [] noModifiers) (mkVec2 0 0)
        = CallMotion event a
        \/ CallPointerDown (TouchEvent [] noModifiers) (mkVec2 0 0)
           = CallPointerDown event a)
       /\ positionOf event = None.
Proof.
  apply (throws_only_without_position unit (fun _ => tt)
           (CallPointerDown (TouchEvent [] noModifiers) (mkVec2 0 0))
           (newTracker unit tt) (newTracker unit tt)).
  reflexivity.
Defined.

Lemma key_calls_frame_witness :
  _state
    (performAll (fun _ : IVec2 => tt)
       [CallKeyDown;
        CallKeyUp (mkKeyboardEvent (mkModifiers false true false false));
        CallKeyUp (mkKeyboardEvent noModifiers)]
       (set_state eClicked (newTracker unit tt)))
  = eClicked.
Proof.
  apply (key_calls_frame unit (fun _ => tt)
           [CallKeyDown;
            CallKeyUp (mkKeyboardEvent (mkModifiers false true false false));
            CallKeyUp (mkKeyboardEvent noModifiers)]
           (set_state eClicked (newTracker unit tt))).
  reflexivity.
Defined.

Lemma turbo_gesture_ends_on_motion_witness :
  exists t',
    onMotionEvent (fun _ : IVec2 => tt) (MouseEvent 40 40 0 noModifiers)
      (mkVec2 0 0)
      (trackerOf
         (onKeyUpEvent (mkKeyboardEvent noModifiers)
            (set_turboMode true (set_state eDragging (newTracker unit tt)))))
    = Returned t' [PointerMotion (mkVec2 40 40) false]
    /\ _state t' = eReleased
    /\ turboMode t' = false.
Proof.
  apply (turbo_gesture_ends_on_motion unit (fun _ => tt)
           (set_turboMode true (set_state eDragging (newTracker unit tt)))
           (mkKeyboardEvent noModifiers)
           (MouseEvent 40 40 0 noModifiers) (mkVec2 0 0) (mkVec2 40 40)).
  - reflexivity.
  - simpl. lia.
  - reflexivity.
  - reflexivity.
  - reflexivity.
  - reflexivity.
Defined.

(** The selector on the scenarios of the specification: one condition field
    against two, and equal scores. *)
Module SelectorScenarios.

Import Selector Samples.

Example substring_is_case_insensitive :
  stringMatches noRegex asciiLowerCase "fire" "Firefox" = true
  /\ stringMatches noRegex asciiLowerCase "FIRE" "BigFirefox" = true
  /\ stringMatches noRegex asciiLowerCase "fox!" "Firefox" = false.
Proof. repeat split. Qed.

Example more_fields_win :
  chooseMenuIndex noRegex asciiLowerCase request firefox
    [onTrigger "B" oneField; onTrigger "A" twoFields; onTrigger "C" None]
  = Some 1%nat.
Proof. reflexivity. Qed.

Example earlier_wins_on_equal_scores :
  chooseMenuIndex noRegex asciiLowerCase request firefox
    [onTrigger "C" None; onTrigger "B" oneField; onTrigger "B2" oneField]
  = Some 1%nat.
Proof. reflexivity. Qed.

Example unsatisfied_field_disqualifies :
  chooseMenuIndex noRegex asciiLowerCase request firefox
    [onTrigger "D" failingField; onTrigger "B" oneField]
  = Some 1%nat
  /\ chooseMenuIndex noRegex asciiLowerCase request firefox [onTrigger "D" failingField]
     = None.
Proof. split; reflexivity. Qed.

End SelectorScenarios.
